(** * sg_race_trigger: the monitor, its line parser and the run protocol

    A shallow embedding of [drivers/scsi/sg/sg_race_trigger.c].  C strings
    are lists of characters (the bytes before the terminating NUL), C
    integers are [Z], the library calls the program relies on ([strstr],
    [strchr], [sscanf], [fgets], [fopen]) are modelled next to the
    functions that use them, and the parts of the world the program only
    observes (the status feed, the outcome of opening the log file, signal
    delivery) are inputs of the model. *)

From Stdlib Require Import List Ascii String ZArith Lia Bool.
From Stdlib Require Import DecimalString DecimalPos DecimalZ.
Import ListNotations.

Local Open Scope Z_scope.

(** ** C strings *)

Module CString.

Definition cstr (s : string) : list ascii := list_ascii_of_string s.

(** [char] is signed on the x86-64 Linux targets of the program. *)
Definition char_val (c : ascii) : Z :=
  let n := Z.of_N (N_of_ascii c) in
  if n <? 128 then n else n - 256.

Definition NUL : ascii := "000"%char.
Definition newline : ascii := "010"%char.

(** [strlen]-delimited contents of a byte array: what precedes the first NUL. *)
Fixpoint c_string (bytes : list ascii) : list ascii :=
  match bytes with
  | [] => []
  | c :: t => if Ascii.eqb c NUL then [] else c :: c_string t
  end.

Fixpoint is_prefix (needle hay : list ascii) : bool :=
  match needle, hay with
  | [], _ => true
  | _ :: _, [] => false
  | a :: n', b :: h' => Ascii.eqb a b && is_prefix n' h'
  end.

(** [strstr(hay, needle)]: the suffix of [hay] that starts at the first
    occurrence of [needle], [None] for a NULL result. *)
Fixpoint strstr (hay needle : list ascii) : option (list ascii) :=
  if is_prefix needle hay then Some hay
  else match hay with
       | [] => None
       | _ :: t => strstr t needle
       end.

(** [strchr(s, c)]: the suffix of [s] that starts at the first [c]. *)
Fixpoint strchr (s : list ascii) (c : ascii) : option (list ascii) :=
  match s with
  | [] => None
  | a :: t => if Ascii.eqb a c then Some s else strchr t c
  end.

(** [isspace] in the C locale. *)
Definition isspace (c : ascii) : bool :=
  let n := char_val c in
  (n =? 32) || ((9 <=? n) && (n <=? 13)).

Definition isdigit (c : ascii) : bool :=
  let n := char_val c in
  (48 <=? n) && (n <=? 57).

Fixpoint skip_space (s : list ascii) : list ascii :=
  match s with
  | c :: t => if isspace c then skip_space t else s
  | [] => []
  end.

(** Longest prefix whose characters satisfy [f], and what follows it. *)
Fixpoint span (f : ascii -> bool) (s : list ascii) : list ascii * list ascii :=
  match s with
  | c :: t => if f c then let (a, b) := span f t in (c :: a, b) else ([], s)
  | [] => ([], [])
  end.

End CString.
Import CString.

(** ** sscanf *)

Module Scanf.

Definition INT_MIN : Z := -2147483648.
Definition INT_MAX : Z := 2147483647.
Definition LONG_MIN : Z := -9223372036854775808.
Definition LONG_MAX : Z := 9223372036854775807.

(** Conversion of a [long] to [int]: the low 32 bits, signed. *)
Definition int_of_long (v : Z) : Z :=
  (v + 2147483648) mod 4294967296 - 2147483648.

(** [strtol] saturates at the limits of [long]. *)
Definition clamp_long (v : Z) : Z :=
  if v <? LONG_MIN then LONG_MIN
  else if LONG_MAX <? v then LONG_MAX
  else v.

Definition digit_val (c : ascii) : Z := char_val c - 48.

Definition digits_value (ds : list ascii) : Z :=
  fold_left (fun acc c => 10 * acc + digit_val c) ds 0.

(** A literal of the format: every character has to be next in the input.
    The result is the input left after the literal. *)
Fixpoint match_literal (lit s : list ascii) : option (list ascii) :=
  match lit with
  | [] => Some s
  | a :: lit' =>
      match s with
      | b :: s' => if Ascii.eqb a b then match_literal lit' s' else None
      | [] => None
      end
  end.

(** The [%d] directive: white space is skipped, then an optional sign and
    a non-empty run of decimal digits are read.  glibc converts with
    [strtol] and stores the [long] result into the [int] argument.  The
    result is the stored value and the input left. *)
Definition scan_d (s : list ascii) : option (Z * list ascii) :=
  let s1 := skip_space s in
  let '(neg, s2) :=
    match s1 with
    | c :: t =>
        if Ascii.eqb c "-" then (true, t)
        else if Ascii.eqb c "+" then (false, t)
        else (false, s1)
    | [] => (false, s1)
    end in
  let '(ds, s3) := span isdigit s2 in
  match ds with
  | [] => None
  | _ :: _ =>
      let v := digits_value ds in
      Some (int_of_long (clamp_long (if neg then - v else v)), s3)
  end.

(** The [%s] directive: white space is skipped, then the characters up to
    the next white space are read; no character at all (end of input) is an
    input failure.  The result is the stored string. *)
Definition scan_s (s : list ascii) : option (list ascii) :=
  match fst (span (fun c => negb (isspace c)) (skip_space s)) with
  | [] => None
  | tok => Some tok
  end.

End Scanf.
Import Scanf.

(** ** The line parser *)

Definition TIMING_MARKER : list ascii := cstr "t_o/elap=".
Definition OPCODE_MARKER : list ascii := cstr "op=0x".

(** [sscanf(p, "t_o/elap=%d/%dms", &timeout, &elapsed)]: [Some (timeout,
    elapsed)] exactly when the call returns 2, that is when both
    conversions were stored; the trailing [ms] of the format is matched
    after the second conversion and cannot change the count. *)
Definition sscanf_elap (p : list ascii) : option (Z * Z) :=
  match match_literal TIMING_MARKER p with
  | None => None
  | Some r1 =>
      match scan_d r1 with
      | None => None
      | Some (timeout, r2) =>
          match match_literal (cstr "/") r2 with
          | None => None
          | Some r3 =>
              match scan_d r3 with
              | None => None
              | Some (elapsed, _) => Some (timeout, elapsed)
              end
          end
      end
  end.

(** [long parse_elapsed(const char *line)] *)
Definition parse_elapsed (line : list ascii) : Z :=
  match strstr line TIMING_MARKER with
  | Some p =>
      match sscanf_elap p with
      | Some (_, elapsed) => elapsed
      | None => -1
      end
  | None => -1
  end.

(** Outcome of a piece of the program: a value, behaviour the C language
    leaves undefined, or a loop that is still going when the inputs supplied
    to the model end. *)
Inductive result (A : Type) : Type :=
| Done (a : A)
| Undefined
| Pending.
Arguments Done {A} a.
Arguments Undefined {A}.
Arguments Pending {A}.

Definition bind {A B : Type} (r : result A) (k : A -> result B) : result B :=
  match r with
  | Done a => k a
  | Undefined => Undefined
  | Pending => Pending
  end.

Notation "x <- r ;; k" := (bind r (fun x => k))
  (at level 61, r at next level, right associativity).

(** Size of the [opcode] arrays of [monitor_worker]. *)
Definition OPCODE_SIZE : Z := 8.

(** The loop of [get_opcode] that cuts the scanned string at its first
    character outside ['0'..'9'] and ['a'..'f']. *)
Definition is_opcode_char (c : ascii) : bool :=
  let n := char_val c in
  negb ((n <? 48) || ((57 <? n) && (n <? 97)) || (102 <? n)).

Fixpoint cut_opcode (opcode : list ascii) : list ascii :=
  match opcode with
  | c :: t => if is_opcode_char c then c :: cut_opcode t else []
  | [] => []
  end.

(** [void get_opcode(const char *line, char *opcode)], for the argument its
    only call passes: a [char opcode[8]] that has not been initialised.
    [%s] stores the scanned characters and a NUL, so a string of 8
    characters or more is written past the end of the array; when [%s]
    stores nothing the loop reads the uninitialised array. *)
Definition get_opcode (line : list ascii) : result (list ascii) :=
  match strstr line OPCODE_MARKER with
  | Some p =>
      match match_literal OPCODE_MARKER p with
      | Some r =>
          match scan_s r with
          | Some tok =>
              if Z.of_nat (List.length tok) <? OPCODE_SIZE
              then Done (cut_opcode tok)
              else Undefined
          | None => Undefined
          end
      | None => Undefined
      end
  | None => Done (cstr "??")
  end.

(** ** The monitor *)

(** One block appended to [bug_find.log] by [log_debug_snapshot]. *)
Record log_record : Type := {
  rec_time : list ascii;
  rec_iteration : Z;
  rec_elapsed : Z;
  rec_opcode : list ascii;
  rec_snapshot : list ascii
}.

(** Contents of [bug_find.log]: the header written by [main] and the blocks
    appended after it, as far as they are whole; what a write that failed
    left in the file is not an entry. *)
Inductive log_entry : Type :=
| LogHeader
| LogRecord (r : log_record).

Definition is_record (e : log_entry) : bool :=
  match e with
  | LogRecord _ => true
  | LogHeader => false
  end.

Definition record_count (log : list log_entry) : Z :=
  Z.of_nat (List.length (filter is_record log)).

(** What the program prints, and its sleeps, in order. *)
Inductive event : Type :=
| CreateWarning                  (* stderr: Could not create bug_find.log *)
| SetupFailed                    (* stderr: Failed to find scsi_debug sg device *)
| MonitorStart                   (* Starting monitor (will run 1000 iterations) *)
| PerrorFopen                    (* perror("fopen") *)
| Sleep (seconds : Z)
| Usleep (usec : Z)
| LogWarning                     (* stderr: Failed to open bug_find.log for writing *)
| BugReport (iteration elapsed : Z) (opcode line : list ascii)
| Progress (iteration bugs : Z)
| Summary (bugs : Z).

(** The globals of the program, the locals of [monitor_worker] that live
    across lines, and the files and terminal it writes to. *)
Record state : Type := {
  keep_running : Z;
  bugs_found : Z;
  iteration : Z;
  first_bug : option (Z * list ascii);   (* found_bug, bug_elapsed, bug_opcode *)
  bug_log : list log_entry;
  log_opens : nat;                       (* calls of fopen on bug_find.log so far *)
  console : list event
}.

Definition set_keep_running (v : Z) (s : state) : state :=
  {| keep_running := v; bugs_found := bugs_found s; iteration := iteration s;
     first_bug := first_bug s; bug_log := bug_log s; log_opens := log_opens s;
     console := console s |}.

Definition set_bugs_found (v : Z) (s : state) : state :=
  {| keep_running := keep_running s; bugs_found := v; iteration := iteration s;
     first_bug := first_bug s; bug_log := bug_log s; log_opens := log_opens s;
     console := console s |}.

Definition set_iteration (v : Z) (s : state) : state :=
  {| keep_running := keep_running s; bugs_found := bugs_found s; iteration := v;
     first_bug := first_bug s; bug_log := bug_log s; log_opens := log_opens s;
     console := console s |}.

Definition set_first_bug (v : option (Z * list ascii)) (s : state) : state :=
  {| keep_running := keep_running s; bugs_found := bugs_found s;
     iteration := iteration s; first_bug := v; bug_log := bug_log s;
     log_opens := log_opens s; console := console s |}.

Definition set_bug_log (v : list log_entry) (s : state) : state :=
  {| keep_running := keep_running s; bugs_found := bugs_found s;
     iteration := iteration s; first_bug := first_bug s; bug_log := v;
     log_opens := log_opens s; console := console s |}.

Definition set_log_opens (v : nat) (s : state) : state :=
  {| keep_running := keep_running s; bugs_found := bugs_found s;
     iteration := iteration s; first_bug := first_bug s; bug_log := bug_log s;
     log_opens := v; console := console s |}.

Definition print (e : event) (s : state) : state :=
  {| keep_running := keep_running s; bugs_found := bugs_found s;
     iteration := iteration s; first_bug := first_bug s; bug_log := bug_log s;
     log_opens := log_opens s; console := console s ++ [e] |}.

(** What the run cannot control: whether the k-th [fopen] of
    [bug_find.log] succeeds, whether what is then written reaches the file
    (the program does not look at the results of [fprintf], [fputs] and
    [fclose]), and the time stamp [strftime] produces at that call. *)
Record world : Type := {
  log_open_ok : nat -> bool;
  log_write_ok : nat -> bool;
  time_str : nat -> list ascii
}.

Definition TEST_ITERATIONS : Z := 1000.
Definition LINE_SIZE : nat := 512.           (* sizeof(line), sizeof(saved_line) *)
Definition DEBUG_BUFFER_SIZE : Z := 65536.   (* sizeof(debug_buffer) *)

(** [void cleanup(int sig)], the handler of SIGINT and SIGTERM. *)
Definition cleanup (s : state) : state := set_keep_running 0 s.

(** [fgets(line, size, fp)] on the unread contents [fp] of the file: up to
    [size - 1] characters, stopping after a newline; [None] at end of file.
    The result is the array contents and the rest of the file. *)
Fixpoint fgets_chars (n : nat) (fp : list ascii) : list ascii * list ascii :=
  match n with
  | O => ([], fp)
  | S n' =>
      match fp with
      | [] => ([], [])
      | c :: t =>
          if Ascii.eqb c newline then ([c], t)
          else let (l, r) := fgets_chars n' t in (c :: l, r)
      end
  end.

Definition fgets (size : nat) (fp : list ascii) : option (list ascii * list ascii) :=
  match fp with
  | [] => None
  | _ :: _ => Some (fgets_chars (size - 1) fp)
  end.

(** The loop that saves the feed into [debug_buffer].  [fgets] is called
    before [buf_pos] is tested, and [strlen(line)] characters are copied. *)
Fixpoint read_debug (fuel : nat) (fp debug_buffer : list ascii) (buf_pos : Z)
  : result (list ascii) :=
  match fuel with
  | O => Pending
  | S fuel' =>
      match fgets LINE_SIZE fp with
      | Some (line, fp') =>
          if buf_pos <? DEBUG_BUFFER_SIZE - 512 then
            let len := Z.of_nat (List.length (c_string line)) in
            read_debug fuel' fp' (debug_buffer ++ c_string line) (buf_pos + len)
          else Done debug_buffer
      | None => Done debug_buffer
      end
  end.

(** Every call of [fgets] that returns a line consumes a character. *)
Definition capture (fp : list ascii) : result (list ascii) :=
  read_debug (S (List.length fp)) fp [] 0.

Section Monitor.

Variable w : world.

(** [void log_debug_snapshot(int iteration, long elapsed, const char *opcode,
    const char *debug_content)].  Only [fopen] is tested: when the file
    opens and the write fails (a full disk, an I/O error), the function
    returns as if it had written, with no record in the log and nothing
    printed. *)
Definition log_debug_snapshot (it elapsed : Z) (opcode debug_content : list ascii)
    (s : state) : state :=
  let k := log_opens s in
  let s1 := set_log_opens (S k) s in
  if log_open_ok w k then
    if log_write_ok w k then
      set_bug_log
        (bug_log s1 ++
         [LogRecord {| rec_time := time_str w k; rec_iteration := it;
                       rec_elapsed := elapsed; rec_opcode := opcode;
                       rec_snapshot := debug_content |}]) s1
    else s1
  else print LogWarning s1.

(** The test [elapsed < 0 || elapsed > 10000]. *)
Definition is_bogus (elapsed : Z) : bool :=
  (elapsed <? 0) || (10000 <? elapsed).

(** The body of [if (elapsed < 0 || elapsed > 10000)], after [get_opcode].
    [bugs_found++] is a plain addition: the counter stays within [int]
    ([bugs_found_fits_int] below). *)
Definition report_bug (debug_buffer saved_line : list ascii) (elapsed : Z)
    (opcode : list ascii) (s : state) : state :=
  let s1 :=
    match first_bug s with
    | None => set_first_bug (Some (elapsed, opcode)) s
    | Some _ => s
    end in
  let s2 := set_bugs_found (bugs_found s1 + 1) s1 in
  let s3 := log_debug_snapshot (iteration s2) elapsed opcode debug_buffer s2 in
  print (BugReport (iteration s3) elapsed opcode saved_line) s3.

(** The body of [if (line_len < sizeof(saved_line))]. *)
Definition check_line (debug_buffer saved_line : list ascii) (s : state)
  : result state :=
  match strstr saved_line (cstr "elap=") with
  | Some _ =>
      let elapsed := parse_elapsed saved_line in
      if is_bogus elapsed then
        opcode <- get_opcode saved_line ;;
        Done (report_bug debug_buffer saved_line elapsed opcode s)
      else Done s
  | None => Done s
  end.

(** The loop over the lines of the saved buffer. *)
Fixpoint check_lines (fuel : nat) (debug_buffer line_ptr : list ascii) (s : state)
  : result state :=
  match fuel with
  | O => Pending
  | S fuel' =>
      match line_ptr with
      | [] => Done s
      | _ :: _ =>
          match strchr line_ptr newline with
          | None => Done s
          | Some next_line =>
              let line_len := (List.length line_ptr - List.length next_line)%nat in
              s' <- (if Z.of_nat line_len <? Z.of_nat LINE_SIZE
                     then check_line debug_buffer (firstn line_len line_ptr) s
                     else Done s) ;;
              check_lines fuel' debug_buffer (tl next_line) s'
          end
      end
  end.

Definition check_buffer (debug_buffer : list ascii) (s : state) : result state :=
  check_lines (S (List.length debug_buffer)) debug_buffer debug_buffer s.

(** One round of the [while] loop of [monitor_worker] in which
    [/proc/scsi/sg/debug] could be opened; [fp] is what the file holds. *)
Definition monitor_pass (fp : list ascii) (s : state) : result state :=
  debug_buffer <- capture fp ;;
  s1 <- check_buffer debug_buffer (set_first_bug None s) ;;
  let s2 := set_iteration (iteration s1 + 1) s1 in
  let s3 :=
    if Z.rem (iteration s2) 100 =? 0
    then print (Progress (iteration s2) (bugs_found s2)) s2
    else s2 in
  Done (print (Usleep 100) s3).

(** One round in which [fopen] failed: [perror], [sleep(1)], [continue]. *)
Definition feed_unavailable (s : state) : state :=
  print (Sleep 1) (print PerrorFopen s).

(** What one evaluation of the loop condition and the round after it meet:
    whether a signal was handled since the last evaluation (the handler
    only clears [keep_running], which the monitor reads nowhere else), and
    the contents of the feed, [None] when it cannot be opened. *)
Record pass_input : Type := {
  interrupted : bool;
  feed : option (list ascii)
}.

Definition deliver (inp : pass_input) (s : state) : state :=
  if interrupted inp then cleanup s else s.

Definition loop_condition (s : state) : bool :=
  negb (keep_running s =? 0) && (iteration s <? TEST_ITERATIONS).

(** The [while] loop of [monitor_worker] and the assignment after it. *)
Fixpoint monitor_loop (inputs : list pass_input) (s : state) : result state :=
  match inputs with
  | [] => Pending
  | inp :: rest =>
      let s0 := deliver inp s in
      if loop_condition s0 then
        match feed inp with
        | None => monitor_loop rest (feed_unavailable s0)
        | Some fp => s1 <- monitor_pass fp s0 ;; monitor_loop rest s1
        end
      else Done (set_keep_running 0 s0)
  end.

(** [void *monitor_worker(void *arg)] *)
Definition monitor_worker (inputs : list pass_input) (s : state) : result state :=
  monitor_loop inputs (print MonitorStart (set_iteration 0 s)).

(** The state [main] starts from; [old_log] is what [bug_find.log] holds
    from earlier runs. *)
Definition initial_state (old_log : list log_entry) : state :=
  {| keep_running := 1; bugs_found := 0; iteration := 0; first_bug := None;
     bug_log := old_log; log_opens := 0; console := [] |}.

(** [fopen(BUG_LOG_FILE, "w")] and the header, at the start of [main]:
    opening the file empties it; the result of writing the header is not
    looked at either. *)
Definition create_log (s : state) : state :=
  let k := log_opens s in
  let s1 := set_log_opens (S k) s in
  if log_open_ok w k
  then set_bug_log (if log_write_ok w k then [LogHeader] else []) s1
  else print CreateWarning s1.

(** [int main()]: the exit status and the final state.  [setup_ok] tells
    whether [find_scsi_debug_sg] found the device; otherwise [setup_device]
    calls [exit(1)].  The I/O threads write no shared variable; [main]
    joins them after clearing [keep_running]. *)
Definition main (old_log : list log_entry) (setup_ok : bool)
    (inputs : list pass_input) : result (Z * state) :=
  let s0 := create_log (initial_state old_log) in
  if setup_ok then
    s1 <- monitor_worker inputs s0 ;;
    let s2 := set_keep_running 0 s1 in
    let s3 := print (Summary (bugs_found s2)) s2 in
    Done ((if 0 <? bugs_found s3 then 0 else 1), s3)
  else Done (1, print SetupFailed s0).

(** The steps of a run that can touch the shared variables, interleaved in
    any order: a signal, one round of an I/O thread, one round of the
    monitor, the monitor leaving its loop, and [main] stopping the I/O
    threads. *)
Inductive step : state -> state -> Prop :=
| step_signal : forall s, step s (cleanup s)
| step_io_worker : forall s, keep_running s <> 0 -> step s s
| step_monitor_skip : forall s,
    loop_condition s = true -> step s (feed_unavailable s)
| step_monitor_pass : forall s fp s',
    loop_condition s = true -> monitor_pass fp s = Done s' -> step s s'
| step_monitor_exit : forall s,
    loop_condition s = false -> step s (set_keep_running 0 s)
| step_main_stop : forall s, step s (set_keep_running 0 s).

Inductive steps : state -> state -> Prop :=
| steps_refl : forall s, steps s s
| steps_cons : forall s1 s2 s3, step s1 s2 -> steps s2 s3 -> steps s1 s3.

End Monitor.

(** ** Notions used in the statements *)

(** What [printf("%d")] writes for [z]; the kernel formats both numbers of
    the timing field with it. *)
Definition print_d (z : Z) : list ascii :=
  list_ascii_of_string (NilEmpty.string_of_int (Z.to_int z)).

(** The opcode in the words of the specification: the longest leading run
    of hexadecimal digits, where a hexadecimal digit is one of [0-9],
    [a-f], [A-F]. *)
Definition spec_hex_digit (c : ascii) : bool :=
  let n := char_val c in
  ((48 <=? n) && (n <=? 57)) || ((97 <=? n) && (n <=? 102))
  || ((65 <=? n) && (n <=? 70)).

Definition spec_opcode (s : list ascii) : list ascii :=
  fst (span spec_hex_digit s).

(** The text after which a decimal number ends. *)
Definition ends_number (r : list ascii) : bool :=
  match r with
  | [] => true
  | c :: _ => negb (isdigit c)
  end.

(** The text after which a run of opcode characters ends. *)
Definition ends_opcode (r : list ascii) : bool :=
  match r with
  | [] => true
  | c :: _ => negb (is_opcode_char c)
  end.

(** The characters [%s] stores from [r]. *)
Definition word (r : list ascii) : list ascii :=
  fst (span (fun c => negb (isspace c)) (skip_space r)).

(** The characters of an unsigned decimal numeral. *)
Definition uint_chars (d : Decimal.uint) : list ascii :=
  list_ascii_of_string (NilEmpty.string_of_uint d).

Definition is_log_warning (e : event) : bool :=
  match e with
  | LogWarning => true
  | _ => false
  end.

(** Number of warnings about a failed [fopen] in [log_debug_snapshot]. *)
Definition log_warnings (c : list event) : Z :=
  Z.of_nat (List.length (filter is_log_warning c)).

(** Number of the calls [first], ..., [first + n - 1] of [fopen] on the log
    for which [f] holds. *)
Definition calls_where (f : nat -> bool) (first n : nat) : Z :=
  Z.of_nat (List.length (filter f (seq first n))).

(** A text that is empty or ends with a newline: a whole number of lines. *)
Definition newline_terminated (fp : list ascii) : Prop :=
  fp = [] \/ exists fp0, fp = fp0 ++ [newline].

(** Number of characters a round saves from the feed [fp]. *)
Definition captured_length (fp : list ascii) : Z :=
  match capture fp with
  | Done buf => Z.of_nat (List.length buf)
  | _ => -1
  end.

(** ** Sample inputs *)

(** A world in which [bug_find.log] can always be opened and written, one
    in which it never can be opened (a directory that is not writable), and
    one in which it opens but no write reaches it (a full disk). *)
Definition w_ok : world :=
  {| log_open_ok := fun _ => true;
     log_write_ok := fun _ => true;
     time_str := fun _ => cstr "2025-01-01 00:00:00" |}.

Definition w_fail : world :=
  {| log_open_ok := fun _ => false;
     log_write_ok := fun _ => true;
     time_str := fun _ => cstr "2025-01-01 00:00:00" |}.

Definition w_full : world :=
  {| log_open_ok := fun _ => true;
     log_write_ok := fun _ => false;
     time_str := fun _ => cstr "2025-01-01 00:00:00" |}.

(** A line of [/proc/scsi/sg/debug] for a WRITE(6) with a bogus duration. *)
Definition write6_line : list ascii :=
  cstr "     act: id=3 blen=512 t_o/elap=60000/15000ms sgat=0 op=0x0a".

Definition write6_feed : list ascii := write6_line ++ [newline].

(** One round that reads [write6_feed], then a signal. *)
Definition short_run : list pass_input :=
  [ {| interrupted := false; feed := Some write6_feed |};
    {| interrupted := true; feed := None |} ].

(** A feed with nothing wrong in it, and a run that reads it until the
    limit of 1000 rounds stops the monitor. *)
Definition quiet_feed : list ascii :=
  cstr "dev=sg0 max_active=1
     act: id=7 blen=512 t_o/elap=60000/50ms sgat=0 op=0x00
".

Definition quiet_run : list pass_input :=
  repeat {| interrupted := false; feed := Some quiet_feed |} 1001.

(** 128 lines of 510 characters and a newline. *)
Definition long_feed : list ascii :=
  List.concat (repeat (repeat "a"%char 510 ++ [newline]) 128).

(** ** The lines of a buffer *)

(** The newline-terminated lines of a text, without their newlines; what
    follows the last newline is not a line.  [cur] holds the characters of
    the line being read, last first. *)
Fixpoint lines_from (cur s : list ascii) : list (list ascii) :=
  match s with
  | [] => []
  | c :: t =>
      if Ascii.eqb c newline then rev cur :: lines_from [] t
      else lines_from (c :: cur) t
  end.

Definition complete_lines (s : list ascii) : list (list ascii) :=
  lines_from [] s.

(** The lines the monitor reports: shorter than [saved_line], holding
    [elap=], with a value below 0 or above 10000. *)
Definition flagged (line : list ascii) : bool :=
  (Z.of_nat (List.length line) <? Z.of_nat LINE_SIZE) &&
  match strstr line (cstr "elap=") with
  | Some _ => is_bogus (parse_elapsed line)
  | None => false
  end.

(** The reports of a list of lines, one after the other. *)
Fixpoint report_lines (w : world) (debug_buffer : list ascii)
    (lines : list (list ascii)) (s : state) : result state :=
  match lines with
  | [] => Done s
  | l :: ls =>
      opcode <- get_opcode l ;;
      report_lines w debug_buffer ls
        (report_bug w debug_buffer l (parse_elapsed l) opcode s)
  end.

(** The lines named by the reports on the terminal, in order. *)
Fixpoint reported_lines (c : list event) : list (list ascii) :=
  match c with
  | [] => []
  | BugReport _ _ _ line :: c' => line :: reported_lines c'
  | _ :: c' => reported_lines c'
  end.

Definition is_progress (e : event) : bool :=
  match e with
  | Progress _ _ => true
  | _ => false
  end.

(** Number of progress lines on the terminal. *)
Definition progress_count (c : list event) : Z :=
  Z.of_nat (List.length (filter is_progress c)).

(** The records among the entries of the log. *)
Fixpoint log_records (log : list log_entry) : list log_record :=
  match log with
  | [] => []
  | LogRecord r :: log' => r :: log_records log'
  | LogHeader :: log' => log_records log'
  end.

(** What [monitor_worker] prints outside a report: everything but the
    report itself and the warning of [log_debug_snapshot]. *)
Definition quiet (e : event) : bool :=
  match e with
  | LogWarning | BugReport _ _ _ _ => false
  | _ => true
  end.

(** A record that carries its context: its snapshot holds a reported line
    from which its elapsed value and opcode were taken. *)
Definition record_in_context (r : log_record) : Prop :=
  exists line,
    In line (complete_lines (rec_snapshot r)) /\
    flagged line = true /\
    rec_elapsed r = parse_elapsed line /\
    get_opcode line = Done (rec_opcode r).

(** ** The I/O threads *)

(** The three SCSI commands of the program, six bytes each. *)
Definition test_unit_ready : list Z := [0; 0; 0; 0; 0; 0].
Definition read6 : list Z := [8; 0; 0; 0; 1; 0].
Definition write6 : list Z := [10; 0; 0; 0; 1; 0].

(** The transfer directions of [scsi/sg.h] that the program uses. *)
Inductive dxfer : Type :=
| SG_DXFER_NONE
| SG_DXFER_TO_DEV
| SG_DXFER_FROM_DEV.

(** The fields of [sg_io_hdr_t] that [send_scsi_cmd] sets; [memset] clears
    the others. *)
Record sg_io_hdr : Type := {
  interface_id : ascii;
  cmd_len : Z;
  cmdp : list Z;
  mx_sb_len : Z;
  dxfer_direction : dxfer;
  dxfer_len : Z;
  timeout : Z
}.

(** [void send_scsi_cmd(int fd, unsigned char *cmd, int dxfer_direction)]:
    the request handed to [ioctl(fd, SG_IO, &io)], whose result is not
    looked at. *)
Definition send_scsi_cmd (cmd : list Z) (direction : dxfer) : sg_io_hdr :=
  {| interface_id := "S"%char;
     cmd_len := 6;
     cmdp := cmd;
     mx_sb_len := 32;
     dxfer_direction := direction;
     dxfer_len := match direction with SG_DXFER_NONE => 0 | _ => 512 end;
     timeout := 60000 |}.

(** The [while (keep_running)] loop of [io_worker].  [flags] are the
    values of [keep_running] that the successive tests of the loop read,
    [sent] the requests made so far.  [cmd_idx++] on [INT_MAX] overflows. *)
Fixpoint io_loop (flags : list Z) (cmd_idx : Z) (sent : list sg_io_hdr)
  : result (list sg_io_hdr) :=
  match flags with
  | [] => Pending
  | k :: rest =>
      if k =? 0 then Done sent
      else if cmd_idx =? INT_MAX then Undefined
      else
        let request :=
          match Z.rem cmd_idx 3 with
          | 0 => [send_scsi_cmd test_unit_ready SG_DXFER_NONE]
          | 1 => [send_scsi_cmd read6 SG_DXFER_FROM_DEV]
          | 2 => [send_scsi_cmd write6 SG_DXFER_TO_DEV]
          | _ => []
          end in
        io_loop rest (cmd_idx + 1) (sent ++ request)
  end.

(** [void *io_worker(void *arg)]: the requests the thread makes; none when
    the device cannot be opened. *)
Definition io_worker (open_ok : bool) (flags : list Z)
  : result (list sg_io_hdr) :=
  if open_ok then io_loop flags 0 [] else Done [].

(** The request that the rotation puts in place [k]. *)
Definition rotation (k : nat) : sg_io_hdr :=
  match (k mod 3)%nat with
  | O => send_scsi_cmd test_unit_ready SG_DXFER_NONE
  | S O => send_scsi_cmd read6 SG_DXFER_FROM_DEV
  | _ => send_scsi_cmd write6 SG_DXFER_TO_DEV
  end.

(** The tests of the loop that come before the first one to read 0. *)
Fixpoint rounds_before_stop (flags : list Z) : nat :=
  match flags with
  | [] => O
  | k :: rest => if k =? 0 then O else S (rounds_before_stop rest)
  end.

(** ** Finding the device *)

(** What [find_scsi_debug_sg] sees of the system: the output of the
    [lsscsi] pipeline ([None] when [popen] fails), the contents of
    [/sys/class/scsi_generic/sg<n>/device/model] ([None] when [fopen]
    fails), the output of the pipeline over [/proc/scsi/scsi], the target of
    the link [/sys/class/scsi_generic/sg<n>] ([None] when [readlink] fails)
    and the paths for which [access(path, F_OK)] is 0. *)
Record system : Type := {
  lsscsi_output : option (list ascii);
  sg_model : Z -> option (list ascii);
  proc_scsi_output : option (list ascii);
  sg_link : Z -> option (list ascii);
  path_exists : list ascii -> bool
}.

Definition DEVICE_PATH_SIZE : Z := 64.

(** The characters that the loop over the end of [model] overwrites. *)
Definition is_trailing (c : ascii) : bool :=
  Ascii.eqb c newline || Ascii.eqb c " " || Ascii.eqb c "013".

(** The walk of [p] from the last character towards the first, on the
    characters last first. *)
Fixpoint skip_trailing (rev_model : list ascii) : list ascii :=
  match rev_model with
  | c :: t => if is_trailing c then skip_trailing t else rev_model
  | [] => []
  end.

(** [model] after the loop has put a NUL over its trailing characters. *)
Definition trim_model (model : list ascii) : list ascii :=
  rev (skip_trailing (rev model)).

(** ["/dev/sg%d"] *)
Definition dev_sg (sg_num : Z) : list ascii := cstr "/dev/sg" ++ print_d sg_num.

(** Method 1.  [Some path]: the function returns 0 with [device_path] set;
    [None]: it goes on.  When [access] fails after [pclose(fp)], the
    [pclose(fp)] that follows closes the stream a second time. *)
Definition find_by_lsscsi (sys : system) (device_path : list ascii)
  : result (option (list ascii)) :=
  match lsscsi_output sys with
  | None => Done None
  | Some out =>
      match fgets 256 out with
      | None => Done None
      | Some (chunk, _) =>
          let line := c_string chunk in
          match strstr line (cstr "/dev/sg") with
          | None => Done None
          | Some _ =>
              path <- match scan_s line with
                      | Some tok =>
                          if Z.of_nat (List.length tok) <? DEVICE_PATH_SIZE
                          then Done tok else Undefined
                      | None => Done device_path
                      end ;;
              if path_exists sys path then Done (Some path) else Undefined
          end
      end
  end.

(** Method 2, from [sg_num] on, for [count] devices.  [model + strlen(model)
    - 1] is not a pointer into [model] when the line read is empty; when
    [access] fails after [fclose(fp)], the [fclose(fp)] at the end of the
    loop body closes the file a second time. *)
Fixpoint find_by_model (sys : system) (count : nat) (sg_num : Z)
  : result (option (list ascii)) :=
  match count with
  | O => Done None
  | S count' =>
      match sg_model sys sg_num with
      | None => find_by_model sys count' (sg_num + 1)
      | Some contents =>
          match fgets 64 contents with
          | None => find_by_model sys count' (sg_num + 1)
          | Some (chunk, _) =>
              match c_string chunk with
              | [] => Undefined
              | model =>
                  match strstr (trim_model model) (cstr "scsi_debug") with
                  | Some _ =>
                      if path_exists sys (dev_sg sg_num)
                      then Done (Some (dev_sg sg_num))
                      else Undefined
                  | None => find_by_model sys count' (sg_num + 1)
                  end
              end
          end
      end
  end.

(** [sscanf(line, "scsi%d Channel: %d Id: %d Lun: %d", ...)]: the four
    numbers when the call returns 4.  A space of the format matches any
    amount of white space. *)
Definition sscanf_host (line : list ascii) : option (Z * Z * Z * Z) :=
  match match_literal (cstr "scsi") line with
  | None => None
  | Some r1 =>
  match scan_d r1 with
  | None => None
  | Some (host, r2) =>
  match match_literal (cstr "Channel:") (skip_space r2) with
  | None => None
  | Some r3 =>
  match scan_d (skip_space r3) with
  | None => None
  | Some (channel, r4) =>
  match match_literal (cstr "Id:") (skip_space r4) with
  | None => None
  | Some r5 =>
  match scan_d (skip_space r5) with
  | None => None
  | Some (id, r6) =>
  match match_literal (cstr "Lun:") (skip_space r6) with
  | None => None
  | Some r7 =>
  match scan_d (skip_space r7) with
  | None => None
  | Some (lun, _) => Some (host, channel, id, lun)
  end end end end end end end end.

(** ["%d:%d:%d:%d"], at most 47 characters. *)
Definition expected_address (host channel id lun : Z) : list ascii :=
  print_d host ++ cstr ":" ++ print_d channel ++ cstr ":" ++
  print_d id ++ cstr ":" ++ print_d lun.

(** The loop of method 3.  After the first match [fp] is closed: if
    [access] fails, the loop goes on and the stream is closed again, by the
    next match or after the loop. *)
Fixpoint find_by_link (sys : system) (expected : list ascii) (count : nat)
    (sg_num : Z) : result (option (list ascii)) :=
  match count with
  | O => Done None
  | S count' =>
      match sg_link sys sg_num with
      | None => find_by_link sys expected count' (sg_num + 1)
      | Some link =>
          match firstn 255 link with
          | [] => find_by_link sys expected count' (sg_num + 1)
          | target =>
              match strstr (c_string target) expected with
              | Some _ =>
                  if path_exists sys (dev_sg sg_num)
                  then Done (Some (dev_sg sg_num))
                  else Undefined
              | None => find_by_link sys expected count' (sg_num + 1)
              end
          end
      end
  end.

(** Method 3. *)
Definition find_by_proc (sys : system) : result (option (list ascii)) :=
  match proc_scsi_output sys with
  | None => Done None
  | Some out =>
      match fgets 256 out with
      | None => Done None
      | Some (chunk, _) =>
          match sscanf_host (c_string chunk) with
          | Some (host, channel, id, lun) =>
              find_by_link sys (expected_address host channel id lun) 32 0
          | None => Done None
          end
      end
  end.

(** The line that method 2 reads from the model file of [sg<sg_num>],
    if there is one. *)
Definition model_line (sys : system) (sg_num : Z) : option (list ascii) :=
  match sg_model sys sg_num with
  | None => None
  | Some contents =>
      match fgets 64 contents with
      | None => None
      | Some (chunk, _) => Some (c_string chunk)
      end
  end.

(** [int find_scsi_debug_sg()]: the value returned and [device_path],
    which is empty when the function is entered. *)
Definition find_scsi_debug_sg (sys : system) : result (Z * list ascii) :=
  r1 <- find_by_lsscsi sys [] ;;
  match r1 with
  | Some path => Done (0, path)
  | None =>
      r2 <- find_by_model sys 32 0 ;;
      match r2 with
      | Some path => Done (0, path)
      | None =>
          r3 <- find_by_proc sys ;;
          match r3 with
          | Some path => Done (0, path)
          | None => Done (-1, [])
          end
      end
  end.

(** A system with one scsi_debug device, [sg2], that [lsscsi] does not
    list. *)
Definition sample_system : system :=
  {| lsscsi_output := Some [];
     sg_model := fun n =>
       if n =? 0 then Some (cstr "Virtual disk    
")
       else if n =? 2 then Some (cstr "scsi_debug      
")
       else None;
     proc_scsi_output := Some [];
     sg_link := fun _ => None;
     path_exists := fun p => String.eqb (string_of_list_ascii p) "/dev/sg2" |}.

(** ** Strings *)

Lemma is_prefix_app : forall n r, is_prefix n (n ++ r) = true.
Proof.
  induction n as [|a n IH]; intro r; simpl; [reflexivity|].
  now rewrite Ascii.eqb_refl, IH.
Qed.

Lemma is_prefix_true : forall n h, is_prefix n h = true -> exists v, h = n ++ v.
Proof.
  induction n as [|a n IH]; intros h H; simpl in *.
  - now exists h.
  - destruct h as [|b h]; [discriminate|].
    apply andb_true_iff in H. destruct H as [Hab Hn].
    apply Ascii.eqb_eq in Hab. subst b.
    destruct (IH _ Hn) as [v ->]. now exists v.
Qed.

Lemma strstr_unfold : forall h n,
  strstr h n =
  if is_prefix n h then Some h
  else match h with [] => None | _ :: t => strstr t n end.
Proof. destruct h; reflexivity. Qed.

Lemma strstr_occurs : forall h n,
  strstr h n <> None <-> exists u v, h = u ++ n ++ v.
Proof.
  intros h n. split.
  - induction h as [|c h IH]; rewrite strstr_unfold;
      destruct (is_prefix n _) eqn:E; intro H.
    + apply is_prefix_true in E. destruct E as [v E]. now exists [], v.
    + now elim H.
    + apply is_prefix_true in E. destruct E as [v E]. now exists [], v.
    + destruct (IH H) as (u & v & ->). now exists (c :: u), v.
  - intros (u & v & ->). induction u as [|c u IH]; rewrite strstr_unfold.
    + simpl. now rewrite is_prefix_app.
    + destruct (is_prefix n _); [discriminate | exact IH].
Qed.

(** A line that holds [a ++ b] holds [b]. *)
Lemma strstr_tail_of_needle : forall h a b,
  strstr h (a ++ b) <> None -> strstr h b <> None.
Proof.
  intros h a b H. apply strstr_occurs in H. destruct H as (u & v & ->).
  apply strstr_occurs. exists (u ++ a), v. now rewrite <- !app_assoc.
Qed.

Lemma strstr_result_prefix : forall h n p,
  strstr h n = Some p -> is_prefix n p = true.
Proof.
  induction h as [|c h IH]; intros n p; rewrite strstr_unfold;
    destruct (is_prefix n _) eqn:E; intro H; try discriminate.
  - now inversion H; subst.
  - now inversion H; subst.
  - eauto.
Qed.

(** Neither marker overlaps a shifted copy of itself, so an occurrence
    that starts before a given one lies wholly before it. *)
Ltac overlap_step x H :=
  destruct x as [|? x];
  [ try (exfalso; now apply H);
    simpl in *; rewrite ?andb_false_r in *; try discriminate
  | ].

Lemma timing_marker_no_overlap : forall x r,
  x <> [] ->
  is_prefix TIMING_MARKER (x ++ TIMING_MARKER ++ r) = true ->
  is_prefix TIMING_MARKER x = true.
Proof.
  intros x r Hx H. unfold TIMING_MARKER, cstr in *.
  do 9 (overlap_step x Hx). exact H.
Qed.

Lemma opcode_marker_no_overlap : forall x r,
  x <> [] ->
  is_prefix OPCODE_MARKER (x ++ OPCODE_MARKER ++ r) = true ->
  is_prefix OPCODE_MARKER x = true.
Proof.
  intros x r Hx H. unfold OPCODE_MARKER, cstr in *.
  do 5 (overlap_step x Hx). exact H.
Qed.

Lemma strstr_first : forall m,
  (forall x r, x <> [] -> is_prefix m (x ++ m ++ r) = true ->
               is_prefix m x = true) ->
  forall pre r, strstr pre m = None ->
  strstr (pre ++ m ++ r) m = Some (m ++ r).
Proof.
  intros m Hm pre r. induction pre as [|c pre IH]; intro H.
  - simpl. rewrite strstr_unfold. now rewrite is_prefix_app.
  - rewrite strstr_unfold in H.
    destruct (is_prefix m (c :: pre)) eqn:E; [discriminate|].
    change ((c :: pre) ++ m ++ r) with (c :: (pre ++ m ++ r)).
    rewrite strstr_unfold.
    destruct (is_prefix m (c :: pre ++ m ++ r)) eqn:E'.
    + apply (Hm (c :: pre) r) in E'; [congruence | discriminate].
    + now apply IH.
Qed.

(** ** Decimal numbers: what [%d] prints, [%d] reads back *)

Ltac digit_step IH :=
  match goal with
  | |- fold_left _ _ ?a = Z.pos (Pos.of_uint_acc _ ?q) =>
      replace a with (Z.pos q);
      [ apply IH
      | match goal with
        | |- context [digit_val ?c] =>
            let v := eval vm_compute in (digit_val c) in
            change (digit_val c) with v; lia
        end ]
  end.

Lemma digits_value_acc : forall d p,
  fold_left (fun acc c => 10 * acc + digit_val c) (uint_chars d) (Z.pos p)
  = Z.pos (Pos.of_uint_acc d p).
Proof.
  unfold uint_chars.
  induction d as [|d IH|d IH|d IH|d IH|d IH|d IH|d IH|d IH|d IH|d IH];
    intro p;
    cbn [NilEmpty.string_of_uint list_ascii_of_string fold_left Pos.of_uint_acc];
    [reflexivity | digit_step IH ..].
Qed.

Lemma digits_value_uint : forall d,
  digits_value (uint_chars d) = Z.of_N (Pos.of_uint d).
Proof.
  unfold digits_value.
  induction d as [|d IH|d IH|d IH|d IH|d IH|d IH|d IH|d IH|d IH|d IH];
    [ reflexivity | exact IH
    | exact (digits_value_acc d 1) | exact (digits_value_acc d 2)
    | exact (digits_value_acc d 3) | exact (digits_value_acc d 4)
    | exact (digits_value_acc d 5) | exact (digits_value_acc d 6)
    | exact (digits_value_acc d 7) | exact (digits_value_acc d 8)
    | exact (digits_value_acc d 9) ].
Qed.

Lemma isdigit_plain : forall c,
  isdigit c = true ->
  isspace c = false /\ Ascii.eqb c "-" = false /\ Ascii.eqb c "+" = false.
Proof.
  intros [[] [] [] [] [] [] [] []]; vm_compute; intro H;
    try discriminate H; repeat split.
Qed.

Lemma uint_chars_head : forall d,
  d <> Decimal.Nil -> exists c t, uint_chars d = c :: t /\ isdigit c = true.
Proof.
  intros d Hd. destruct d; [now elim Hd | ..];
    eexists; eexists; (split; [reflexivity | reflexivity]).
Qed.

Lemma span_uint_chars : forall d r,
  ends_number r = true -> span isdigit (uint_chars d ++ r) = (uint_chars d, r).
Proof.
  intros d r Hr. unfold uint_chars.
  induction d as [|d IH|d IH|d IH|d IH|d IH|d IH|d IH|d IH|d IH|d IH];
    cbn [NilEmpty.string_of_uint list_ascii_of_string app];
    [ destruct r as [|c r]; [reflexivity|]; simpl in *;
      now destruct (isdigit c)
    | cbn [span];
      match goal with
      | |- context [isdigit ?c] =>
          change (isdigit c) with true; cbv iota; now rewrite IH
      end .. ].
Qed.

Lemma int_of_long_small : forall z,
  INT_MIN <= z <= INT_MAX -> int_of_long (clamp_long z) = z.
Proof.
  intros z Hz. unfold INT_MIN, INT_MAX in Hz.
  unfold clamp_long, LONG_MIN, LONG_MAX.
  destruct (Z.ltb_spec z (-9223372036854775808)); [lia|].
  destruct (Z.ltb_spec 9223372036854775807 z); [lia|].
  unfold int_of_long. rewrite Z.mod_small; lia.
Qed.

Lemma scan_d_unsigned : forall c t r,
  isdigit c = true ->
  span isdigit ((c :: t) ++ r) = (c :: t, r) ->
  scan_d ((c :: t) ++ r)
  = Some (int_of_long (clamp_long (digits_value (c :: t))), r).
Proof.
  intros c t r Hc Hspan. destruct (isdigit_plain c Hc) as (Hs & Hm & Hp).
  unfold scan_d.
  change ((c :: t) ++ r) with (c :: (t ++ r)) in *.
  cbn [skip_space]. rewrite Hs, Hm, Hp, Hspan. reflexivity.
Qed.

Lemma scan_d_negative : forall c t r,
  isdigit c = true ->
  span isdigit ((c :: t) ++ r) = (c :: t, r) ->
  scan_d ("-"%char :: (c :: t) ++ r)
  = Some (int_of_long (clamp_long (- digits_value (c :: t))), r).
Proof.
  intros c t r Hc Hspan. unfold scan_d.
  cbn [skip_space]. change (isspace "-") with false. cbv iota.
  change (Ascii.eqb "-" "-") with true. cbv iota.
  rewrite Hspan. reflexivity.
Qed.

(** A number in the range of [int], printed with [%d] and followed by
    something that is not a digit, is read back by [%d]. *)
Lemma scan_d_print_d : forall z r,
  INT_MIN <= z <= INT_MAX -> ends_number r = true ->
  scan_d (print_d z ++ r) = Some (z, r).
Proof.
  intros z r Hz Hr. unfold print_d. destruct z as [|p|p]; cbn [Z.to_int].
  - change (list_ascii_of_string _) with ["0"%char].
    rewrite (scan_d_unsigned "0" [] r); [ | reflexivity | ].
    + change (digits_value ["0"%char]) with 0.
      rewrite int_of_long_small; [reflexivity | exact Hz].
    + apply (span_uint_chars (Decimal.D0 Decimal.Nil) r Hr).
  - cbn [NilEmpty.string_of_int]. fold (uint_chars (Pos.to_uint p)).
    destruct (uint_chars_head _ (Unsigned.to_uint_nonnil p)) as (c & t & E & Hc).
    pose proof (span_uint_chars (Pos.to_uint p) r Hr) as Hspan.
    pose proof (digits_value_uint (Pos.to_uint p)) as Hv.
    rewrite Unsigned.of_to in Hv. rewrite E in *.
    rewrite (scan_d_unsigned c t r Hc Hspan), Hv.
    rewrite int_of_long_small; [reflexivity | exact Hz].
  - cbn [NilEmpty.string_of_int list_ascii_of_string].
    fold (uint_chars (Pos.to_uint p)).
    destruct (uint_chars_head _ (Unsigned.to_uint_nonnil p)) as (c & t & E & Hc).
    pose proof (span_uint_chars (Pos.to_uint p) r Hr) as Hspan.
    pose proof (digits_value_uint (Pos.to_uint p)) as Hv.
    rewrite Unsigned.of_to in Hv. rewrite E in *.
    change (("-"%char :: c :: t) ++ r) with ("-"%char :: (c :: t) ++ r).
    rewrite (scan_d_negative c t r Hc Hspan), Hv.
    rewrite int_of_long_small; [reflexivity | exact Hz].
Qed.

(** ** The two fields of a line *)

Lemma match_literal_app : forall lit r, match_literal lit (lit ++ r) = Some r.
Proof.
  induction lit as [|a lit IH]; intro r; simpl; [reflexivity|].
  now rewrite Ascii.eqb_refl.
Qed.

Lemma parse_elapsed_printed : forall pre timeout elapsed post,
  strstr pre TIMING_MARKER = None ->
  INT_MIN <= timeout <= INT_MAX ->
  INT_MIN <= elapsed <= INT_MAX ->
  parse_elapsed
    (pre ++ TIMING_MARKER ++ print_d timeout ++ cstr "/" ++
     print_d elapsed ++ cstr "ms" ++ post) = elapsed.
Proof.
  intros pre timeout elapsed post Hpre Ht He. unfold parse_elapsed.
  rewrite (strstr_first _ timing_marker_no_overlap pre _ Hpre).
  unfold sscanf_elap. rewrite match_literal_app.
  rewrite (scan_d_print_d timeout); [ | exact Ht | reflexivity ].
  rewrite match_literal_app.
  rewrite (scan_d_print_d elapsed); [ reflexivity | exact He | reflexivity ].
Qed.

Lemma opcode_char_not_space : forall c,
  is_opcode_char c = true -> isspace c = false.
Proof.
  intros [[] [] [] [] [] [] [] []]; vm_compute; intro H;
    try discriminate H; reflexivity.
Qed.

Lemma span_word_app : forall hex post,
  forallb is_opcode_char hex = true ->
  fst (span (fun c => negb (isspace c)) (hex ++ post))
  = hex ++ fst (span (fun c => negb (isspace c)) post).
Proof.
  induction hex as [|c hex IH]; intros post H; [reflexivity|].
  simpl in H. apply andb_true_iff in H. destruct H as [Hc Hx].
  simpl. rewrite (opcode_char_not_space c Hc). simpl.
  specialize (IH post Hx).
  destruct (span _ (hex ++ post)). simpl in *. now rewrite IH.
Qed.

Lemma ends_opcode_word : forall post,
  ends_opcode post = true ->
  ends_opcode (fst (span (fun c => negb (isspace c)) post)) = true.
Proof.
  intros [|c post] H; [reflexivity|]. simpl in *.
  destruct (isspace c); simpl; [reflexivity|].
  now destruct (span _ post).
Qed.

Lemma cut_opcode_app : forall hex x,
  forallb is_opcode_char hex = true -> ends_opcode x = true ->
  cut_opcode (hex ++ x) = hex.
Proof.
  induction hex as [|c hex IH]; intros x H Hx.
  - destruct x as [|d x]; [reflexivity|]. simpl in *.
    now destruct (is_opcode_char d).
  - simpl in H. apply andb_true_iff in H. destruct H as [Hc Hh].
    simpl. rewrite Hc. now rewrite IH.
Qed.

Lemma get_opcode_hex : forall pre hex post,
  strstr pre OPCODE_MARKER = None ->
  hex <> [] ->
  forallb is_opcode_char hex = true ->
  ends_opcode post = true ->
  Z.of_nat (List.length (word (hex ++ post))) < OPCODE_SIZE ->
  get_opcode (pre ++ OPCODE_MARKER ++ hex ++ post) = Done hex.
Proof.
  intros pre hex post Hpre Hne Hhex Hpost Hlen. unfold get_opcode.
  rewrite (strstr_first _ opcode_marker_no_overlap pre _ Hpre).
  rewrite match_literal_app. unfold scan_s. fold (word (hex ++ post)).
  assert (Hw : word (hex ++ post)
               = hex ++ fst (span (fun c => negb (isspace c)) post)).
  { unfold word. destruct hex as [|c hex]; [now elim Hne|].
    pose proof Hhex as Hc. simpl in Hc. apply andb_true_iff in Hc.
    change ((c :: hex) ++ post) with (c :: (hex ++ post)).
    cbn [skip_space]. rewrite (opcode_char_not_space c (proj1 Hc)).
    now apply (span_word_app (c :: hex) post). }
  rewrite Hw in *.
  destruct hex as [|c hex]; [now elim Hne|].
  cbn [app] in *. apply Z.ltb_lt in Hlen. rewrite Hlen.
  change (c :: hex ++ ?x) with ((c :: hex) ++ x).
  now rewrite cut_opcode_app; [ | | apply ends_opcode_word].
Qed.

(** ** The loop over the saved lines *)

Lemma bind_ext : forall (A B : Type) (r : result A) (k1 k2 : A -> result B),
  (forall a, k1 a = k2 a) -> bind r k1 = bind r k2.
Proof. intros A B [a| |] k1 k2 H; simpl; auto. Qed.

Lemma bind_assoc : forall (A B C : Type) (r : result A)
    (k : A -> result B) (h : B -> result C),
  bind (bind r k) h = bind r (fun a => bind (k a) h).
Proof. intros A B C [a| |] k h; reflexivity. Qed.

Lemma bind_done : forall (A B : Type) (r : result A) (k : A -> result B) b,
  bind r k = Done b -> exists a, r = Done a /\ k a = Done b.
Proof. intros A B [a| |] k b H; simpl in H; try discriminate. eauto. Qed.

Lemma strchr_split : forall s c n,
  strchr s c = Some n ->
  exists l t, s = l ++ c :: t /\ n = c :: t /\ ~ In c l.
Proof.
  induction s as [|a s IH]; intros c n H; simpl in H; [discriminate|].
  destruct (Ascii.eqb_spec a c) as [->|Hac].
  - inversion H; subst. exists [], s. simpl. auto.
  - destruct (IH _ _ H) as (l & t & -> & -> & Hl).
    exists (a :: l), t. repeat split; auto.
    simpl. intros [E|E]; auto.
Qed.

Lemma strchr_none : forall s c, strchr s c = None -> ~ In c s.
Proof.
  induction s as [|a s IH]; intros c H; simpl in *; [tauto|].
  destruct (Ascii.eqb_spec a c) as [->|Hac]; [discriminate|].
  intros [E|E]; [auto | now apply (IH c H)].
Qed.

Lemma strchr_app : forall l c t,
  ~ In c l -> strchr (l ++ c :: t) c = Some (c :: t).
Proof.
  induction l as [|a l IH]; intros c t H; simpl.
  - now rewrite Ascii.eqb_refl.
  - destruct (Ascii.eqb_spec a c) as [->|Hac].
    + elim H. now left.
    + apply IH. intro E. apply H. now right.
Qed.

Section MonitorFacts.

Variable w : world.

Lemma check_lines_unfold : forall fuel buf lp s,
  lp <> [] ->
  check_lines w (S fuel) buf lp s =
  match strchr lp newline with
  | None => Done s
  | Some next_line =>
      let line_len := (List.length lp - List.length next_line)%nat in
      s' <- (if Z.of_nat line_len <? Z.of_nat LINE_SIZE
             then check_line w buf (firstn line_len lp) s
             else Done s) ;;
      check_lines w fuel buf (tl next_line) s'
  end.
Proof. intros fuel buf [|c lp] s H; [now elim H | reflexivity]. Qed.

Lemma check_lines_line : forall fuel buf l r s,
  ~ In newline l ->
  check_lines w (S fuel) buf (l ++ newline :: r) s =
  s' <- (if Z.of_nat (List.length l) <? Z.of_nat LINE_SIZE
         then check_line w buf l s else Done s) ;;
  check_lines w fuel buf r s'.
Proof.
  intros fuel buf l r s Hl.
  rewrite check_lines_unfold by (destruct l; discriminate).
  rewrite (strchr_app l newline r Hl). cbv zeta.
  replace (List.length (l ++ newline :: r) - List.length (newline :: r))%nat
    with (List.length l) by (rewrite length_app; lia).
  rewrite firstn_app, Nat.sub_diag, firstn_all.
  cbn [firstn tl]. now rewrite app_nil_r.
Qed.

Lemma check_lines_tail : forall fuel buf l s,
  ~ In newline l -> check_lines w (S fuel) buf l s = Done s.
Proof.
  intros fuel buf l s Hl. cbn [check_lines]. destruct l as [|c l]; [reflexivity|].
  destruct (strchr (c :: l) newline) eqn:E; [|reflexivity].
  apply strchr_split in E. destruct E as (l1 & t & E & _ & _).
  elim Hl. rewrite E. apply in_or_app. right. now left.
Qed.

(** The loop ends before its fuel does. *)
Lemma check_lines_fuel : forall fuel1 fuel2 buf lp s,
  (List.length lp < fuel1)%nat -> (List.length lp < fuel2)%nat ->
  check_lines w fuel1 buf lp s = check_lines w fuel2 buf lp s.
Proof.
  induction fuel1 as [|fuel1 IH]; intros fuel2 buf lp s H1 H2; [lia|].
  destruct fuel2 as [|fuel2]; [lia|].
  destruct (strchr lp newline) as [n|] eqn:E.
  - apply strchr_split in E. destruct E as (l & t & -> & _ & Hl).
    rewrite !check_lines_line by assumption.
    apply bind_ext. intro s'. rewrite length_app in H1, H2. simpl in H1, H2.
    apply IH; lia.
  - apply strchr_none in E. now rewrite !check_lines_tail.
Qed.

Lemma check_lines_nil : forall fuel buf s,
  check_lines w (S fuel) buf [] s = Done s.
Proof. reflexivity. Qed.

(** Lines are handled one after the other: the loop over a buffer whose
    first part ends in a newline is the loop over that part, then over
    the rest. *)
Lemma check_lines_app : forall fuel buf pre rest s,
  (pre = [] \/ exists pre', pre = pre' ++ [newline]) ->
  (List.length (pre ++ rest) < fuel)%nat ->
  check_lines w fuel buf (pre ++ rest) s =
  s' <- check_lines w fuel buf pre s ;; check_lines w fuel buf rest s'.
Proof.
  induction fuel as [|fuel IH]; intros buf pre rest s Hpre Hlen; [lia|].
  destruct Hpre as [->|[pre' ->]]; [reflexivity|].
  destruct (strchr (pre' ++ [newline]) newline) as [n|] eqn:E.
  - apply strchr_split in E. destruct E as (l & t & E & _ & Hl).
    assert (Ht : t = [] \/ exists t', t = t' ++ [newline]).
    { destruct t as [|c0 t0]; [now left|]. right.
      destruct (@exists_last _ (c0 :: t0)) as (t' & c & Et); [discriminate|].
      exists t'. rewrite Et in E |- *.
      change (l ++ newline :: t' ++ [c]) with (l ++ (newline :: t') ++ [c]) in E.
      rewrite app_assoc in E. apply app_inj_tail in E. now destruct E as [_ <-]. }
    rewrite E, <- app_assoc. cbn [app].
    rewrite !check_lines_line by assumption. rewrite bind_assoc.
    apply bind_ext. intro s'.
    rewrite E, <- app_assoc in Hlen.
    rewrite length_app in Hlen. cbn [app List.length] in Hlen.
    rewrite length_app in Hlen.
    rewrite IH by (auto; rewrite length_app; lia).
    apply bind_ext. intro s''. apply check_lines_fuel; lia.
  - apply strchr_none in E. elim E. apply in_or_app. right. now left.
Qed.

(** *** Properties kept by every step of the monitor *)

Section Preservation.

Variable P : state -> Prop.

Hypothesis P_report : forall buf line e op s,
  P s -> P (report_bug w buf line e op s).

Lemma check_line_preserves : forall buf l s s',
  check_line w buf l s = Done s' -> P s -> P s'.
Proof.
  intros buf l s s' H Hs. unfold check_line in H.
  destruct (strstr l _); [|now inversion H; subst].
  destruct (is_bogus _); [|now inversion H; subst].
  apply bind_done in H. destruct H as (op & _ & H).
  inversion H; subst. now apply P_report.
Qed.

Lemma check_lines_preserves : forall fuel buf lp s s',
  check_lines w fuel buf lp s = Done s' -> P s -> P s'.
Proof.
  induction fuel as [|fuel IH]; intros buf lp s s' H Hs; [discriminate|].
  destruct lp as [|c lp]; [now inversion H; subst|].
  rewrite check_lines_unfold in H by discriminate.
  destruct (strchr _ _); [|now inversion H; subst].
  cbv zeta in H. apply bind_done in H. destruct H as (s1 & H1 & H2).
  apply (IH _ _ _ _ H2).
  destruct (_ <? _).
  - now apply (check_line_preserves _ _ _ _ H1).
  - now inversion H1; subst.
Qed.

Hypothesis P_first_bug : forall v s, P s -> P (set_first_bug v s).
Hypothesis P_iteration : forall v s, P s -> P (set_iteration v s).
Hypothesis P_print : forall e s, e <> LogWarning -> P s -> P (print e s).

Lemma monitor_pass_preserves : forall fp s s',
  monitor_pass w fp s = Done s' -> P s -> P s'.
Proof.
  intros fp s s' H Hs. unfold monitor_pass in H.
  apply bind_done in H. destruct H as (buf & _ & H).
  apply bind_done in H. destruct H as (s1 & H1 & H).
  inversion H; subst. clear H.
  assert (P s1).
  { apply (check_lines_preserves _ _ _ _ _ H1). now apply P_first_bug. }
  apply P_print; [discriminate|].
  destruct (_ =? _); [apply P_print; [discriminate|] | ]; now apply P_iteration.
Qed.

Hypothesis P_stop : forall s, P s -> P (set_keep_running 0 s).

Lemma monitor_loop_preserves : forall inputs s s',
  monitor_loop w inputs s = Done s' -> P s -> P s'.
Proof.
  induction inputs as [|inp rest IH]; intros s s' H Hs; [discriminate|].
  cbn [monitor_loop] in H.
  assert (Hd : P (deliver inp s)).
  { unfold deliver, cleanup. destruct (interrupted inp); auto. }
  destruct (loop_condition _).
  - destruct (feed inp) as [fp|].
    + apply bind_done in H. destruct H as (s1 & H1 & H2).
      apply (IH _ _ H2). now apply (monitor_pass_preserves _ _ _ H1).
    + apply (IH _ _ H). unfold feed_unavailable.
      apply P_print; [discriminate|]. now apply P_print; [discriminate|].
  - inversion H; subst. now apply P_stop.
Qed.

Lemma monitor_worker_preserves : forall inputs s s',
  monitor_worker w inputs s = Done s' -> P s -> P s'.
Proof.
  intros inputs s s' H Hs. unfold monitor_worker in H.
  apply (monitor_loop_preserves _ _ _ H).
  apply P_print; [discriminate|]. now apply P_iteration.
Qed.

End Preservation.

End MonitorFacts.

(** ** Saving the feed *)

Lemma fgets_chars_split : forall n fp l r,
  fgets_chars n fp = (l, r) -> fp = l ++ r /\ (List.length l <= n)%nat.
Proof.
  induction n as [|n IH]; intros fp l r H; simpl in H.
  - inversion H; subst. simpl. split; [reflexivity | lia].
  - destruct fp as [|c t]; [inversion H; subst; simpl; split; [reflexivity | lia]|].
    destruct (Ascii.eqb c newline).
    + inversion H; subst. simpl. split; [reflexivity | lia].
    + destruct (fgets_chars n t) as [l' r'] eqn:E. inversion H; subst.
      destruct (IH _ _ _ E) as [-> Hl]. simpl. split; [reflexivity | lia].
Qed.

Lemma fgets_some : forall size fp l r,
  (1 < size)%nat -> fgets size fp = Some (l, r) ->
  fp = l ++ r /\ (List.length l <= size - 1)%nat /\ l <> [].
Proof.
  intros size fp l r Hsize H. unfold fgets in H.
  destruct fp as [|c t]; [discriminate|]. inversion H as [E]. clear H.
  destruct (fgets_chars_split _ _ _ _ E) as [Hs Hl].
  repeat split; auto.
  destruct (size - 1)%nat as [|n] eqn:En; [lia|]. simpl in E.
  destruct (Ascii.eqb c newline); [inversion E; discriminate|].
  destruct (fgets_chars n t). inversion E. discriminate.
Qed.

Lemma fgets_none : forall size fp, fgets size fp = None -> fp = [].
Proof. intros size [|c t] H; [reflexivity | discriminate]. Qed.

Lemma c_string_length : forall l, (List.length (c_string l) <= List.length l)%nat.
Proof.
  induction l as [|c l IH]; simpl; [lia|].
  destruct (Ascii.eqb c NUL); simpl; lia.
Qed.

Lemma c_string_nul_free : forall l, ~ In NUL l -> c_string l = l.
Proof.
  induction l as [|c l IH]; intro H; simpl; [reflexivity|].
  destruct (Ascii.eqb_spec c NUL) as [->|_].
  - elim H. now left.
  - rewrite IH; [reflexivity|]. intro E. apply H. now right.
Qed.

Lemma read_debug_unfold : forall fuel fp buf pos,
  read_debug (S fuel) fp buf pos =
  match fgets LINE_SIZE fp with
  | Some (line, fp') =>
      if pos <? DEBUG_BUFFER_SIZE - 512 then
        read_debug fuel fp' (buf ++ c_string line)
          (pos + Z.of_nat (List.length (c_string line)))
      else Done buf
  | None => Done buf
  end.
Proof. reflexivity. Qed.

Lemma line_size_gt_1 : (1 < LINE_SIZE)%nat.
Proof. unfold LINE_SIZE. lia. Qed.

(** The buffer never holds more than [sizeof(debug_buffer) - 2]
    characters, so it stays NUL-terminated. *)
Lemma read_debug_bound : forall fuel fp buf pos out,
  pos = Z.of_nat (List.length buf) ->
  pos <= DEBUG_BUFFER_SIZE - 2 ->
  read_debug fuel fp buf pos = Done out ->
  Z.of_nat (List.length out) <= DEBUG_BUFFER_SIZE - 2.
Proof.
  induction fuel as [|fuel IH]; intros fp buf pos out Hpos Hle H;
    [discriminate|].
  rewrite read_debug_unfold in H.
  destruct (fgets LINE_SIZE fp) as [[line fp']|] eqn:E;
    [|inversion H; subst; lia].
  destruct (Z.ltb_spec pos (DEBUG_BUFFER_SIZE - 512));
    [|inversion H; subst; lia].
  apply (IH _ _ _ _) in H; [exact H | |].
  - rewrite length_app. lia.
  - destruct (fgets_some _ _ _ _ line_size_gt_1 E) as (_ & Hl & _).
    pose proof (c_string_length line). unfold LINE_SIZE, DEBUG_BUFFER_SIZE in *.
    lia.
Qed.

Lemma read_debug_total : forall fuel fp buf pos,
  (List.length fp < fuel)%nat -> exists out, read_debug fuel fp buf pos = Done out.
Proof.
  induction fuel as [|fuel IH]; intros fp buf pos Hlen; [lia|].
  rewrite read_debug_unfold.
  destruct (fgets LINE_SIZE fp) as [[line fp']|] eqn:E; [|eauto].
  destruct (pos <? _); [|eauto].
  destruct (fgets_some _ _ _ _ line_size_gt_1 E) as (-> & _ & Hne).
  apply IH. rewrite length_app in Hlen. destruct line; [now elim Hne|].
  simpl in Hlen. lia.
Qed.

Lemma read_debug_fuel : forall fuel1 fuel2 fp buf pos,
  (List.length fp < fuel1)%nat -> (List.length fp < fuel2)%nat ->
  read_debug fuel1 fp buf pos = read_debug fuel2 fp buf pos.
Proof.
  induction fuel1 as [|fuel1 IH]; intros fuel2 fp buf pos H1 H2; [lia|].
  destruct fuel2 as [|fuel2]; [lia|]. rewrite !read_debug_unfold.
  destruct (fgets LINE_SIZE fp) as [[line fp']|] eqn:E; [|reflexivity].
  destruct (pos <? _); [|reflexivity].
  destruct (fgets_some _ _ _ _ line_size_gt_1 E) as (-> & _ & Hne).
  rewrite length_app in H1, H2. destruct line; [now elim Hne|].
  simpl in H1, H2. apply IH; lia.
Qed.

(** What is saved is the beginning of the feed. *)
Lemma read_debug_prefix : forall fuel fp buf pos out,
  ~ In NUL fp ->
  read_debug fuel fp buf pos = Done out ->
  exists dropped, buf ++ fp = out ++ dropped.
Proof.
  induction fuel as [|fuel IH]; intros fp buf pos out Hnul H; [discriminate|].
  rewrite read_debug_unfold in H.
  destruct (fgets LINE_SIZE fp) as [[line fp']|] eqn:E;
    [|inversion H; subst; now exists fp].
  destruct (pos <? _); [|inversion H; subst; now exists fp].
  destruct (fgets_some _ _ _ _ line_size_gt_1 E) as (-> & _ & _).
  rewrite c_string_nul_free in H.
  - apply IH in H.
    + destruct H as [d H]. exists d. now rewrite app_assoc.
    + intro X. apply Hnul. apply in_or_app. now right.
  - intro X. apply Hnul. apply in_or_app. now left.
Qed.

Lemma fgets_chars_app : forall n fp0 extra,
  fgets_chars n ((fp0 ++ [newline]) ++ extra) =
  (fst (fgets_chars n (fp0 ++ [newline])),
   snd (fgets_chars n (fp0 ++ [newline])) ++ extra).
Proof.
  induction n as [|n IH]; intros fp0 extra; [reflexivity|].
  destruct fp0 as [|c fp0]; [reflexivity|].
  cbn [app fgets_chars]. destruct (Ascii.eqb c newline); [reflexivity|].
  specialize (IH fp0 extra). cbn [app] in IH. rewrite IH.
  now destruct (fgets_chars n (fp0 ++ [newline])).
Qed.

Lemma fgets_app : forall size fp0 extra line fp',
  fgets size (fp0 ++ [newline]) = Some (line, fp') ->
  fgets size ((fp0 ++ [newline]) ++ extra) = Some (line, fp' ++ extra).
Proof.
  intros size fp0 extra line fp' H. unfold fgets in *.
  destruct (fp0 ++ [newline]) as [|c t] eqn:E; [discriminate|].
  rewrite <- E in *. cbn [app]. rewrite E at 1. cbn [app].
  rewrite fgets_chars_app. inversion H as [H1]. now rewrite H1.
Qed.

Lemma ends_in_newline_rest : forall (line fp' : list ascii) fp0,
  fp0 ++ [newline] = line ++ fp' ->
  fp' = [] \/ exists fp1, fp' = fp1 ++ [newline].
Proof.
  intros line fp' fp0 H. destruct fp' as [|c t]; [now left|]. right.
  destruct (@exists_last _ (c :: t)) as (fp1 & d & E); [discriminate|].
  exists fp1. rewrite E in *. rewrite app_assoc in H.
  apply app_inj_tail in H. now destruct H as [_ <-].
Qed.

(** Once [sizeof(debug_buffer) - 512] characters are saved, nothing that
    follows in the feed changes what is saved. *)
Lemma read_debug_drop : forall fuel1 fuel2 fp extra buf pos out,
  (fp = [] \/ exists fp0, fp = fp0 ++ [newline]) ->
  (List.length (fp ++ extra) < fuel2)%nat ->
  pos = Z.of_nat (List.length buf) ->
  read_debug fuel1 fp buf pos = Done out ->
  DEBUG_BUFFER_SIZE - 512 <= Z.of_nat (List.length out) ->
  read_debug fuel2 (fp ++ extra) buf pos = Done out.
Proof.
  induction fuel1 as [|fuel1 IH];
    intros fuel2 fp extra buf pos out Hfp Hlen Hpos H Hout; [discriminate|].
  destruct fuel2 as [|fuel2]; [lia|].
  rewrite read_debug_unfold in *.
  destruct Hfp as [->|[fp0 ->]].
  - cbn [fgets] in H. inversion H; subst. cbn [app].
    destruct (fgets LINE_SIZE extra) as [[line fp']|]; [|reflexivity].
    destruct (Z.ltb_spec (Z.of_nat (List.length out)) (DEBUG_BUFFER_SIZE - 512));
      [lia | reflexivity].
  - destruct (fgets LINE_SIZE (fp0 ++ [newline])) as [[line fp']|] eqn:E.
    + rewrite (fgets_app _ _ extra _ _ E).
      destruct (pos <? _); [|exact H].
      destruct (fgets_some _ _ _ _ line_size_gt_1 E) as (Hs & _ & Hne).
      apply (IH fuel2 fp' extra _ _ out); auto.
      * now apply (ends_in_newline_rest line fp' fp0).
      * rewrite Hs, <- app_assoc, length_app in Hlen.
        destruct line; [now elim Hne|]. simpl in Hlen. lia.
      * rewrite length_app. lia.
    + apply fgets_none in E. now destruct fp0.
Qed.

(** ** The counter, the log and the stop flag *)

Lemma record_count_app : forall l1 l2,
  record_count (l1 ++ l2) = record_count l1 + record_count l2.
Proof.
  intros l1 l2. unfold record_count. rewrite filter_app, length_app. lia.
Qed.

Lemma log_warnings_app : forall c1 c2,
  log_warnings (c1 ++ c2) = log_warnings c1 + log_warnings c2.
Proof.
  intros c1 c2. unfold log_warnings. rewrite filter_app, length_app. lia.
Qed.

Lemma log_warnings_print : forall e s,
  e <> LogWarning -> log_warnings (console (print e s)) = log_warnings (console s).
Proof.
  intros e s He. cbn [print console]. rewrite log_warnings_app.
  destruct e; try (now elim He); cbn; lia.
Qed.

Section CounterFacts.

Variable w : world.

Lemma report_bug_bugs_found : forall buf line e op s,
  bugs_found (report_bug w buf line e op s) = bugs_found s + 1.
Proof.
  intros. unfold report_bug, log_debug_snapshot.
  destruct (first_bug s); destruct (log_open_ok w _);
    try destruct (log_write_ok w _); reflexivity.
Qed.

Lemma report_bug_keep_running : forall buf line e op s,
  keep_running (report_bug w buf line e op s) = keep_running s.
Proof.
  intros. unfold report_bug, log_debug_snapshot.
  destruct (first_bug s); destruct (log_open_ok w _);
    try destruct (log_write_ok w _); reflexivity.
Qed.

Lemma report_bug_log_opens : forall buf line e op s,
  log_opens (report_bug w buf line e op s) = S (log_opens s).
Proof.
  intros. unfold report_bug, log_debug_snapshot.
  destruct (first_bug s); destruct (log_open_ok w _);
    try destruct (log_write_ok w _); reflexivity.
Qed.

Lemma calls_where_S : forall f first n,
  calls_where f first (S n)
  = calls_where f first n + (if f (first + n)%nat then 1 else 0).
Proof.
  intros f first n. unfold calls_where.
  rewrite seq_S, filter_app, length_app. cbn [filter].
  destruct (f (first + n)%nat); cbn [List.length]; lia.
Qed.

Lemma calls_where_first : forall f first n,
  calls_where f first (S n)
  = (if f first then 1 else 0) + calls_where f (S first) n.
Proof.
  intros f first n. unfold calls_where. cbn [seq filter].
  destruct (f first); cbn [List.length]; lia.
Qed.

Lemma calls_where_bounds : forall f first n,
  0 <= calls_where f first n <= Z.of_nat n.
Proof.
  intros f first n. unfold calls_where.
  pose proof (filter_length_le f (seq first n)) as H.
  rewrite length_seq in H. lia.
Qed.

Lemma calls_where_all : forall f first n,
  (forall k, f k = true) -> calls_where f first n = Z.of_nat n.
Proof.
  intros f first n Hf. unfold calls_where.
  rewrite (forallb_filter_id f) by (apply forallb_forall; auto).
  now rewrite length_seq.
Qed.

(** One call of [log_debug_snapshot] leaves a record when the file opens
    and the write succeeds, a warning when the file does not open, and
    neither when the file opens and the write fails. *)
Lemma report_bug_record_count : forall buf line e op s,
  record_count (bug_log (report_bug w buf line e op s))
  = record_count (bug_log s)
    + (if log_open_ok w (log_opens s) && log_write_ok w (log_opens s)
       then 1 else 0).
Proof.
  intros. unfold report_bug, log_debug_snapshot.
  destruct (first_bug s);
    cbn [log_opens set_bugs_found set_first_bug];
    destruct (log_open_ok w _); try destruct (log_write_ok w _);
    cbn [print console bug_log set_bug_log set_log_opens set_bugs_found
         set_first_bug andb];
    rewrite ?record_count_app; cbn; lia.
Qed.

Lemma report_bug_warnings : forall buf line e op s,
  log_warnings (console (report_bug w buf line e op s))
  = log_warnings (console s)
    + (if log_open_ok w (log_opens s) then 0 else 1).
Proof.
  intros. unfold report_bug, log_debug_snapshot.
  destruct (first_bug s);
    cbn [log_opens set_bugs_found set_first_bug];
    destruct (log_open_ok w _); try destruct (log_write_ok w _);
    cbn [print console bug_log set_bug_log set_log_opens set_bugs_found
         set_first_bug];
    rewrite ?log_warnings_app; cbn; lia.
Qed.

(** The monitor never writes [keep_running] inside a round. *)
Lemma monitor_pass_keep_running : forall fp s s',
  monitor_pass w fp s = Done s' -> keep_running s' = keep_running s.
Proof.
  intros fp s s' H.
  apply (monitor_pass_preserves w (fun x => keep_running x = keep_running s))
    with (fp := fp) (s := s); auto.
  intros. now rewrite report_bug_keep_running.
Qed.

(** Counter and calls of [log_debug_snapshot] advance together. *)
Lemma monitor_worker_calls : forall inputs s s',
  monitor_worker w inputs s = Done s' ->
  bugs_found s' - Z.of_nat (log_opens s') = bugs_found s - Z.of_nat (log_opens s).
Proof.
  intros inputs s s' H.
  apply (monitor_worker_preserves w
           (fun x => bugs_found x - Z.of_nat (log_opens x)
                     = bugs_found s - Z.of_nat (log_opens s)))
    with (inputs := inputs) (s := s); auto.
  intros buf line e op x Hx.
  rewrite report_bug_bugs_found, report_bug_log_opens. lia.
Qed.

(** The records in the log and the warnings on the terminal follow the
    outcomes of the calls of [fopen] and of the writes. *)
Lemma monitor_worker_records : forall inputs s s',
  monitor_worker w inputs s = Done s' ->
  record_count (bug_log s')
  - calls_where (fun k => log_open_ok w k && log_write_ok w k) 0 (log_opens s')
  = record_count (bug_log s)
    - calls_where (fun k => log_open_ok w k && log_write_ok w k) 0 (log_opens s).
Proof.
  intros inputs s s' H.
  apply (monitor_worker_preserves w
           (fun x => record_count (bug_log x)
                     - calls_where (fun k => log_open_ok w k && log_write_ok w k)
                         0 (log_opens x)
                     = record_count (bug_log s)
                       - calls_where
                           (fun k => log_open_ok w k && log_write_ok w k)
                           0 (log_opens s)))
    with (inputs := inputs) (s := s); auto.
  intros buf line e op x Hx.
  rewrite report_bug_record_count, report_bug_log_opens, calls_where_S.
  cbn [Nat.add]. lia.
Qed.

Lemma monitor_worker_warnings : forall inputs s s',
  monitor_worker w inputs s = Done s' ->
  log_warnings (console s')
  - calls_where (fun k => negb (log_open_ok w k)) 0 (log_opens s')
  = log_warnings (console s)
    - calls_where (fun k => negb (log_open_ok w k)) 0 (log_opens s).
Proof.
  intros inputs s s' H.
  apply (monitor_worker_preserves w
           (fun x => log_warnings (console x)
                     - calls_where (fun k => negb (log_open_ok w k))
                         0 (log_opens x)
                     = log_warnings (console s)
                       - calls_where (fun k => negb (log_open_ok w k))
                           0 (log_opens s)))
    with (inputs := inputs) (s := s); auto.
  - intros buf line e op x Hx.
    rewrite report_bug_warnings, report_bug_log_opens, calls_where_S.
    cbn [Nat.add]. destruct (log_open_ok w (log_opens x)); cbn [negb]; lia.
  - intros e x He Hx. now rewrite log_warnings_print.
Qed.

Lemma monitor_worker_log_opens : forall inputs s s',
  monitor_worker w inputs s = Done s' ->
  (log_opens s <= log_opens s')%nat.
Proof.
  intros inputs s s' H.
  apply (monitor_worker_preserves w
           (fun x => (log_opens s <= log_opens x)%nat))
    with (inputs := inputs) (s := s); auto.
  intros buf line e op x Hx. rewrite report_bug_log_opens. lia.
Qed.

Lemma main_done : forall old setup inputs status s,
  main w old setup inputs = Done (status, s) ->
  (setup = false /\ status = 1 /\
   s = print SetupFailed (create_log w (initial_state old))) \/
  (setup = true /\
   exists s1,
     monitor_worker w inputs (create_log w (initial_state old)) = Done s1 /\
     s = print (Summary (bugs_found s1)) (set_keep_running 0 s1) /\
     status = if 0 <? bugs_found s1 then 0 else 1).
Proof.
  intros old setup inputs status s H. unfold main in H.
  destruct setup.
  - right. split; [reflexivity|].
    apply bind_done in H. destruct H as (s1 & H1 & H2).
    exists s1. inversion H2; subst. auto.
  - left. inversion H; subst. auto.
Qed.

End CounterFacts.


(** ** Termination of the inner loops and the range of the counter *)

Lemma c_string_no_nul : forall l, ~ In NUL (c_string l).
Proof.
  induction l as [|c l IH]; simpl; [tauto|].
  destruct (Ascii.eqb_spec c NUL) as [->|Hc]; simpl; [tauto|].
  intros [E|E]; [now apply Hc | now apply IH].
Qed.

(** The saved characters hold no NUL: the buffer, as a C string, is all
    of them. *)
Lemma read_debug_no_nul : forall fuel fp buf pos out,
  ~ In NUL buf -> read_debug fuel fp buf pos = Done out -> ~ In NUL out.
Proof.
  induction fuel as [|fuel IH]; intros fp buf pos out Hbuf H; [discriminate|].
  rewrite read_debug_unfold in H.
  destruct (fgets LINE_SIZE fp) as [[line fp']|]; [|now inversion H; subst].
  destruct (pos <? _); [|now inversion H; subst].
  apply IH in H; [exact H|]. intro X. apply in_app_or in X.
  destruct X as [X|X]; [now apply Hbuf | now apply (c_string_no_nul line)].
Qed.

Section Termination.

Variable w : world.

Lemma check_lines_not_pending : forall fuel buf lp s,
  (List.length lp < fuel)%nat -> check_lines w fuel buf lp s <> Pending.
Proof.
  induction fuel as [|fuel IH]; intros buf lp s Hlen; [lia|].
  destruct (strchr lp newline) as [n|] eqn:E.
  - apply strchr_split in E. destruct E as (l & t & -> & _ & Hl).
    rewrite check_lines_line by exact Hl.
    rewrite length_app in Hlen. simpl in Hlen.
    destruct (_ <? _).
    + unfold check_line. destruct (strstr l _); [|simpl; apply IH; lia].
      destruct (is_bogus _); [|simpl; apply IH; lia].
      unfold get_opcode. destruct (strstr l OPCODE_MARKER);
        [|simpl; apply IH; lia].
      destruct (match_literal _ _); [|discriminate].
      destruct (scan_s _); [|discriminate].
      destruct (_ <? _); [simpl; apply IH; lia | discriminate].
    + simpl. apply IH. lia.
  - apply strchr_none in E. now rewrite check_lines_tail.
Qed.

Lemma monitor_pass_not_pending : forall fp s, monitor_pass w fp s <> Pending.
Proof.
  intros fp s. unfold monitor_pass.
  destruct (read_debug_total (S (List.length fp)) fp [] 0) as [buf Hbuf]; [lia|].
  fold (capture fp) in Hbuf. rewrite Hbuf. cbn [bind].
  pose proof (check_lines_not_pending (S (List.length buf)) buf buf
                (set_first_bug None s)) as H.
  fold (check_buffer w buf (set_first_bug None s)) in H.
  destruct (check_buffer w buf (set_first_bug None s));
    [discriminate | discriminate | elim H; [lia | reflexivity]].
Qed.

(** A signal ends the loop at its next test of [keep_running]. *)
Lemma monitor_loop_interrupted : forall inputs inp rest s,
  interrupted inp = true ->
  monitor_loop w (inputs ++ inp :: rest) s <> Pending.
Proof.
  induction inputs as [|i inputs IH]; intros inp rest s Hi; cbn [app monitor_loop].
  - unfold deliver. rewrite Hi. unfold loop_condition, cleanup. cbn. discriminate.
  - destruct (loop_condition _); [|discriminate].
    destruct (feed i) as [fp|]; [|now apply IH].
    pose proof (monitor_pass_not_pending fp (deliver i s)) as Hp.
    destruct (monitor_pass w fp (deliver i s));
      [cbn; now apply IH | discriminate | now elim Hp].
Qed.

Lemma report_bug_iteration : forall buf line e op s,
  iteration (report_bug w buf line e op s) = iteration s.
Proof.
  intros. unfold report_bug, log_debug_snapshot.
  destruct (first_bug s); destruct (log_open_ok w _);
    try destruct (log_write_ok w _); reflexivity.
Qed.

Lemma check_line_bugs_found : forall buf l s s',
  check_line w buf l s = Done s' ->
  bugs_found s <= bugs_found s' <= bugs_found s + 1.
Proof.
  intros buf l s s' H. unfold check_line in H.
  destruct (strstr l _); [|inversion H; subst; lia].
  destruct (is_bogus _); [|inversion H; subst; lia].
  apply bind_done in H. destruct H as (op & _ & H). inversion H; subst.
  rewrite report_bug_bugs_found. lia.
Qed.

(** Every report takes a line, and every line a character. *)
Lemma check_lines_bugs_found : forall fuel buf lp s s',
  check_lines w fuel buf lp s = Done s' ->
  bugs_found s <= bugs_found s' <= bugs_found s + Z.of_nat (List.length lp).
Proof.
  induction fuel as [|fuel IH]; intros buf lp s s' H; [discriminate|].
  destruct (strchr lp newline) as [n|] eqn:E.
  - apply strchr_split in E. destruct E as (l & t & -> & _ & Hl).
    rewrite check_lines_line in H by exact Hl.
    apply bind_done in H. destruct H as (s1 & H1 & H2).
    apply IH in H2. rewrite length_app. cbn [List.length].
    assert (bugs_found s <= bugs_found s1 <= bugs_found s + 1).
    { destruct (_ <? _); [now apply (check_line_bugs_found buf l)|].
      inversion H1; subst. lia. }
    lia.
  - apply strchr_none in E. rewrite check_lines_tail in H by exact E.
    inversion H; subst. lia.
Qed.

Lemma monitor_pass_counts : forall fp s s',
  monitor_pass w fp s = Done s' ->
  iteration s' = iteration s + 1 /\
  bugs_found s <= bugs_found s' <= bugs_found s + (DEBUG_BUFFER_SIZE - 2).
Proof.
  intros fp s s' H. unfold monitor_pass in H.
  apply bind_done in H. destruct H as (buf & Hbuf & H).
  apply bind_done in H. destruct H as (s1 & H1 & H).
  assert (Hlen : Z.of_nat (List.length buf) <= DEBUG_BUFFER_SIZE - 2).
  { apply (read_debug_bound (S (List.length fp)) fp [] 0 buf);
      [reflexivity | unfold DEBUG_BUFFER_SIZE; lia | exact Hbuf]. }
  assert (Hit : iteration s1 = iteration s).
  { apply (check_lines_preserves w (fun x => iteration x = iteration s))
      with (2 := H1); [|reflexivity].
    intros b line e op x Hx. now rewrite report_bug_iteration. }
  apply check_lines_bugs_found in H1. cbn [set_first_bug bugs_found] in H1.
  inversion H; subst. clear H.
  destruct (_ =? _); cbn [print set_iteration iteration bugs_found]; lia.
Qed.

(** With the feed available, the loop ends after at most 1000 rounds. *)
Lemma monitor_loop_finishes : forall inputs s,
  (forall inp, In inp inputs -> feed inp <> None) ->
  Z.max 0 (TEST_ITERATIONS - iteration s) < Z.of_nat (List.length inputs) ->
  monitor_loop w inputs s <> Pending.
Proof.
  induction inputs as [|inp rest IH]; intros s Hfeed Hlen;
    [cbn in Hlen; lia|].
  cbn [monitor_loop].
  assert (Hd : iteration (deliver inp s) = iteration s).
  { unfold deliver. now destruct (interrupted inp). }
  destruct (loop_condition (deliver inp s)) eqn:Hc; [|discriminate].
  unfold loop_condition in Hc. apply andb_true_iff in Hc.
  destruct Hc as [_ Hc]. apply Z.ltb_lt in Hc. rewrite Hd in Hc.
  destruct (feed inp) as [fp|] eqn:Hf; [|elim (Hfeed inp); [now left | exact Hf]].
  pose proof (monitor_pass_not_pending fp (deliver inp s)) as Hp.
  destruct (monitor_pass w fp (deliver inp s)) as [s1| |] eqn:E;
    [|discriminate | now elim Hp].
  cbn [bind]. apply monitor_pass_counts in E. destruct E as [E _].
  apply IH.
  - intros i Hi. apply Hfeed. now right.
  - cbn [List.length] in Hlen. lia.
Qed.

End Termination.

Section CounterRange.

Variable w : world.

Lemma monitor_loop_counts : forall inputs s s',
  monitor_loop w inputs s = Done s' ->
  0 <= iteration s <= TEST_ITERATIONS ->
  0 <= bugs_found s <= (DEBUG_BUFFER_SIZE - 2) * iteration s ->
  0 <= iteration s' <= TEST_ITERATIONS /\
  0 <= bugs_found s' <= (DEBUG_BUFFER_SIZE - 2) * iteration s'.
Proof.
  induction inputs as [|inp rest IH]; intros s s' H Hit Hb; [discriminate|].
  cbn [monitor_loop] in H.
  assert (Hd : iteration (deliver inp s) = iteration s /\
               bugs_found (deliver inp s) = bugs_found s).
  { unfold deliver. now destruct (interrupted inp). }
  destruct Hd as [Hd1 Hd2].
  destruct (loop_condition (deliver inp s)) eqn:Hc.
  - unfold loop_condition in Hc. apply andb_true_iff in Hc.
    destruct Hc as [_ Hc]. apply Z.ltb_lt in Hc. rewrite Hd1 in Hc.
    destruct (feed inp) as [fp|].
    + apply bind_done in H. destruct H as (s1 & H1 & H2).
      apply monitor_pass_counts in H1. rewrite Hd1, Hd2 in H1.
      apply (IH _ _ H2); unfold DEBUG_BUFFER_SIZE, TEST_ITERATIONS in *; nia.
    + apply (IH _ _ H); cbn [feed_unavailable print iteration bugs_found];
        rewrite ?Hd1, ?Hd2; assumption.
  - inversion H; subst. cbn [set_keep_running iteration bugs_found].
    now rewrite Hd1, Hd2.
Qed.

(** [bugs_found] stays far below [INT_MAX]: the additions on it never
    overflow. *)
Lemma bugs_found_fits_int : forall old setup inputs status s,
  main w old setup inputs = Done (status, s) ->
  0 <= bugs_found s <= 65534000 /\ 65534000 < INT_MAX.
Proof.
  intros old setup inputs status s H. split; [|reflexivity].
  assert (Hstart : bugs_found (create_log w (initial_state old)) = 0).
  { unfold create_log. now destruct (log_open_ok w _). }
  destruct (main_done w _ _ _ _ _ H)
    as [(_ & _ & ->) | (_ & s1 & Hrun & -> & _)].
  - cbn [print bugs_found]. rewrite Hstart. lia.
  - unfold monitor_worker in Hrun. apply monitor_loop_counts in Hrun.
    + cbn [print set_keep_running bugs_found].
      unfold DEBUG_BUFFER_SIZE, TEST_ITERATIONS in Hrun. lia.
    + cbn. unfold TEST_ITERATIONS. lia.
    + cbn [print set_iteration iteration bugs_found]. rewrite Hstart. lia.
Qed.

End CounterRange.

(** * The properties of the specification *)

(** ** Parsing and the anomaly test *)

(** C3: for a line whose timing field is present with value [elapsed], the
    monitor reports the line exactly when [elapsed < 0] or
    [elapsed > 10000]: for a value in [[0, 10000]] the state is left as it
    was, otherwise the opcode is taken and the bug is reported, which adds
    one to [bugs_found]. *)
Theorem bogus_iff_negative_or_above_threshold :
  forall w buf line p timeout elapsed s,
    strstr line TIMING_MARKER = Some p ->
    sscanf_elap p = Some (timeout, elapsed) ->
    (is_bogus elapsed = true <-> elapsed < 0 \/ 10000 < elapsed) /\
    (0 <= elapsed <= 10000 -> check_line w buf line s = Done s) /\
    (elapsed < 0 \/ 10000 < elapsed ->
       check_line w buf line s =
       (opcode <- get_opcode line ;;
        Done (report_bug w buf line elapsed opcode s)) /\
       forall opcode,
         bugs_found (report_bug w buf line elapsed opcode s)
         = bugs_found s + 1).
Proof.
  intros w buf line p timeout elapsed s Hp Hscan.
  assert (Hbogus : is_bogus elapsed = true <-> elapsed < 0 \/ 10000 < elapsed).
  { unfold is_bogus. rewrite orb_true_iff, !Z.ltb_lt. tauto. }
  assert (Hparse : parse_elapsed line = elapsed).
  { unfold parse_elapsed. now rewrite Hp, Hscan. }
  assert (Hgate : exists q, strstr line (cstr "elap=") = Some q).
  { destruct (strstr line (cstr "elap=")) as [q|] eqn:E; [now exists q|].
    exfalso. apply (strstr_tail_of_needle line (cstr "t_o/") (cstr "elap="));
      [|exact E].
    change (cstr "t_o/" ++ cstr "elap=") with TIMING_MARKER.
    now rewrite Hp. }
  destruct Hgate as [q Hq].
  split; [exact Hbogus|]. split.
  - intro Hrange. unfold check_line. rewrite Hq, Hparse.
    destruct (is_bogus elapsed); [|reflexivity].
    destruct Hbogus as [Hb _]. specialize (Hb eq_refl). lia.
  - intro Hout. split.
    + unfold check_line. rewrite Hq, Hparse.
      apply Hbogus in Hout. now rewrite Hout.
    + intro opcode. apply report_bug_bugs_found.
Qed.

Lemma bogus_iff_negative_or_above_threshold_witness :
  check_line w_ok write6_feed write6_line (initial_state [])
  = (opcode <- get_opcode write6_line ;;
     Done (report_bug w_ok write6_feed write6_line 15000 opcode
             (initial_state []))).
Proof.
  apply (bogus_iff_negative_or_above_threshold w_ok write6_feed write6_line
           (cstr "t_o/elap=60000/15000ms sgat=0 op=0x0a") 60000 15000
           (initial_state [])).
  - reflexivity.
  - reflexivity.
  - right. lia.
Defined.

(** C5: on the malformed line of scenario D both functions return: the
    opcode is cut at its first character, which is not a hexadecimal
    digit, so it is empty, and the elapsed time is the value -1 that
    stands for an absent field. *)
Theorem scenario_D_malformed_line :
  get_opcode (cstr "op=0xZZ t_o/elap=abc/ms") = Done [] /\
  parse_elapsed (cstr "op=0xZZ t_o/elap=abc/ms") = -1.
Proof. split; reflexivity. Qed.

(** C2, as stated, fails: the monitor looks for [elap=], not for the
    timing marker [t_o/elap=].  The line [elap=5] has no timing marker,
    [parse_elapsed] returns -1 for it, and the monitor applies the test to
    that -1 and reports the line. *)
Lemma elap_without_timing_marker_is_flagged :
  strstr (cstr "elap=5") TIMING_MARKER = None /\
  parse_elapsed (cstr "elap=5") = -1 /\
  exists s',
    check_buffer w_ok (cstr "elap=5" ++ [newline]) (initial_state []) = Done s' /\
    bugs_found s' = 1.
Proof.
  split; [reflexivity|]. split; [reflexivity|].
  eexists. split; [vm_compute; reflexivity | reflexivity].
Qed.

(** C2, amended: [parse_elapsed] returns -1 for every line without the
    timing marker [t_o/elap=]; a line without [elap=] has no timing marker
    and the monitor never applies the test to it: the state is unchanged
    and the loop goes on with the next line. *)
Theorem line_without_elap_is_not_checked : forall w buf line s,
  (strstr line TIMING_MARKER = None -> parse_elapsed line = -1) /\
  (strstr line (cstr "elap=") = None ->
     strstr line TIMING_MARKER = None /\
     check_line w buf line s = Done s /\
     forall fuel rest,
       ~ In newline line ->
       check_lines w (S fuel) buf (line ++ newline :: rest) s
       = check_lines w fuel buf rest s).
Proof.
  intros w buf line s. split.
  - intro H. unfold parse_elapsed. now rewrite H.
  - intro H.
    assert (Hline : check_line w buf line s = Done s).
    { unfold check_line. now rewrite H. }
    split; [|split; [exact Hline|]].
    + destruct (strstr line TIMING_MARKER) eqn:E; [|reflexivity].
      exfalso.
      apply (strstr_tail_of_needle line (cstr "t_o/") (cstr "elap="));
        [|exact H].
      change (cstr "t_o/" ++ cstr "elap=") with TIMING_MARKER. now rewrite E.
    + intros fuel rest Hnl. rewrite check_lines_line by exact Hnl.
      rewrite Hline. now destruct (_ <? _).
Qed.

Lemma line_without_elap_is_not_checked_witness :
  parse_elapsed (cstr "dev=sg0 max_active=1") = -1 /\
  check_line w_ok [] (cstr "dev=sg0 max_active=1") (initial_state [])
  = Done (initial_state []).
Proof.
  destruct (line_without_elap_is_not_checked w_ok []
              (cstr "dev=sg0 max_active=1") (initial_state [])) as [H1 H2].
  split.
  - apply H1. reflexivity.
  - apply H2. reflexivity.
Defined.

(** C4, as stated, fails: [get_opcode] keeps ['0'..'9'] and ['a'..'f']
    only, so the opcode [0A] of a line with both fields comes back as
    [0]. *)
Lemma uppercase_opcode_is_cut :
  let line :=
    cstr "     act: id=3 blen=512 t_o/elap=60000/15000ms sgat=0 op=0x0A" in
  strstr line OPCODE_MARKER = Some (OPCODE_MARKER ++ cstr "0A") /\
  parse_elapsed line = 15000 /\
  spec_opcode (cstr "0A") = cstr "0A" /\
  get_opcode line = Done (cstr "0") /\
  get_opcode line <> Done (spec_opcode (cstr "0A")).
Proof.
  cbv zeta. repeat split; try reflexivity.
  vm_compute. discriminate.
Qed.

Lemma span_parts : forall f s,
  s = fst (span f s) ++ snd (span f s) /\
  forallb f (fst (span f s)) = true /\
  match snd (span f s) with
  | [] => True
  | c :: _ => f c = false
  end.
Proof.
  intros f. induction s as [|c s IH]; simpl; [auto|].
  destruct (f c) eqn:E; [|simpl; auto].
  destruct (span f s) as [a b]. simpl in *.
  destruct IH as (H1 & H2 & H3). rewrite E, H2. repeat split; auto.
  now rewrite <- H1.
Qed.

(** C4, amended: on a line whose first [t_o/elap=] is followed by two
    numbers in the range of [int], printed in decimal and separated by
    [/], and then by [ms], [parse_elapsed] returns the second number; and
    when the first [op=0x] is followed by at least one character of
    ['0'..'9'], ['a'..'f'] and the word it starts fits the 8-byte array,
    [get_opcode] returns the longest leading run of such characters. *)
Theorem well_formed_line_fields :
  forall line pre1 timeout elapsed post1 pre2 r,
    line = pre1 ++ TIMING_MARKER ++ print_d timeout ++ cstr "/" ++
           print_d elapsed ++ cstr "ms" ++ post1 ->
    strstr pre1 TIMING_MARKER = None ->
    INT_MIN <= timeout <= INT_MAX ->
    INT_MIN <= elapsed <= INT_MAX ->
    line = pre2 ++ OPCODE_MARKER ++ r ->
    strstr pre2 OPCODE_MARKER = None ->
    fst (span is_opcode_char r) <> [] ->
    Z.of_nat (List.length (word r)) < OPCODE_SIZE ->
    parse_elapsed line = elapsed /\
    get_opcode line = Done (fst (span is_opcode_char r)).
Proof.
  intros line pre1 timeout elapsed post1 pre2 r H1 Hpre1 Ht He H2 Hpre2 Hne Hlen.
  split.
  - rewrite H1. now apply parse_elapsed_printed.
  - rewrite H2. destruct (span_parts is_opcode_char r) as (Hr & Hall & Hend).
    rewrite Hr at 1. rewrite Hr in Hlen. apply get_opcode_hex; auto.
    unfold ends_opcode. destruct (snd (span is_opcode_char r)); [reflexivity|].
    now rewrite Hend.
Qed.

Lemma well_formed_line_fields_witness :
  parse_elapsed write6_line = 15000 /\ get_opcode write6_line = Done (cstr "0a").
Proof.
  apply (well_formed_line_fields write6_line
           (cstr "     act: id=3 blen=512 ") 60000 15000
           (cstr " sgat=0 op=0x0a")
           (cstr "     act: id=3 blen=512 t_o/elap=60000/15000ms sgat=0 ")
           (cstr "0a")).
  - reflexivity.
  - reflexivity.
  - unfold INT_MIN, INT_MAX. lia.
  - unfold INT_MIN, INT_MAX. lia.
  - reflexivity.
  - reflexivity.
  - discriminate.
  - reflexivity.
Defined.

(** ** The monitor loop *)

(** C9: a line of the saved buffer that is 512 characters long or longer
    is passed over: checking the buffer gives what the loop gives on the
    text without that line. *)
Theorem long_line_is_skipped : forall w pre line post s,
  newline_terminated pre ->
  ~ In newline line ->
  (512 <= List.length line)%nat ->
  check_buffer w (pre ++ line ++ newline :: post) s
  = check_lines w (S (List.length (pre ++ post)))
      (pre ++ line ++ newline :: post) (pre ++ post) s.
Proof.
  intros w pre line post s Hpre Hline Hlen. unfold check_buffer.
  set (buf := pre ++ line ++ newline :: post).
  set (fuel := S (List.length buf)).
  assert (Hfuel : (List.length (pre ++ post) < fuel)%nat).
  { unfold fuel, buf. rewrite !length_app. simpl. lia. }
  rewrite (check_lines_fuel w (S (List.length (pre ++ post))) fuel)
    by (auto; lia).
  unfold buf at 2.
  rewrite !check_lines_app by (auto; unfold fuel; lia).
  apply bind_ext. intro s'.
  unfold fuel at 1. rewrite check_lines_line by exact Hline.
  replace (Z.of_nat (List.length line) <? Z.of_nat LINE_SIZE) with false
    by (symmetry; apply Z.ltb_ge; unfold LINE_SIZE; lia).
  cbn [bind]. apply check_lines_fuel.
  - unfold buf. rewrite !length_app. simpl. lia.
  - unfold fuel, buf. rewrite !length_app. simpl. lia.
Qed.

Lemma long_line_is_skipped_witness :
  check_buffer w_ok
    (write6_feed ++ repeat "a"%char 512 ++ newline :: write6_feed)
    (initial_state [])
  = check_lines w_ok (S (List.length (write6_feed ++ write6_feed)))
      (write6_feed ++ repeat "a"%char 512 ++ newline :: write6_feed)
      (write6_feed ++ write6_feed) (initial_state []).
Proof.
  apply (long_line_is_skipped w_ok write6_feed (repeat "a"%char 512)
           write6_feed (initial_state [])).
  - right. exists write6_line. reflexivity.
  - intro H. apply repeat_spec in H. discriminate H.
  - rewrite repeat_length. lia.
Defined.

(** C8: when the feed cannot be opened the round is skipped: [perror],
    a sleep of one second, and the loop goes on, from the state the
    backoff left, with the same [iteration] and the same counters.  What
    the loop then does is the code's next step from that state: with a
    signal before the next test of the condition it ends there, the
    skipped round being all it did; with a feed that opens it runs the
    next round, and that round is the one that moves [iteration], to one
    more than before the skipped round. *)
Theorem feed_unavailable_skips_round : forall w inp rest s,
  loop_condition (deliver inp s) = true ->
  feed inp = None ->
  monitor_loop w (inp :: rest) s = monitor_loop w rest (feed_unavailable s) /\
  iteration (feed_unavailable s) = iteration s /\
  bugs_found (feed_unavailable s) = bugs_found s /\
  loop_condition (feed_unavailable s) = true /\
  console (feed_unavailable s) = console s ++ [PerrorFopen; Sleep 1] /\
  (forall stop rest',
     rest = stop :: rest' ->
     interrupted stop = true ->
     monitor_loop w (inp :: rest) s
     = Done (set_keep_running 0 (feed_unavailable s))) /\
  (forall next fp rest',
     rest = next :: rest' ->
     interrupted next = false ->
     feed next = Some fp ->
     monitor_loop w (inp :: rest) s
     = (s1 <- monitor_pass w fp (feed_unavailable s) ;; monitor_loop w rest' s1) /\
     forall s1,
       monitor_pass w fp (feed_unavailable s) = Done s1 ->
       iteration s1 = iteration s + 1 /\
       monitor_loop w (inp :: rest) s = monitor_loop w rest' s1).
Proof.
  intros w inp rest s Hcond Hfeed.
  assert (Hd : deliver inp s = s).
  { unfold deliver in *. destruct (interrupted inp); [|reflexivity].
    unfold loop_condition, cleanup in Hcond. simpl in Hcond. discriminate. }
  rewrite Hd in Hcond.
  assert (Hskip : forall l,
            monitor_loop w (inp :: l) s = monitor_loop w l (feed_unavailable s)).
  { intro l. cbn [monitor_loop]. now rewrite Hd, Hcond, Hfeed. }
  assert (Hgo : loop_condition (feed_unavailable s) = true) by exact Hcond.
  split; [apply Hskip|].
  split; [reflexivity|].
  split; [reflexivity|].
  split; [exact Hgo|].
  split; [cbn [feed_unavailable print console]; now rewrite <- app_assoc|].
  split.
  - intros stop rest' -> Hstop. rewrite Hskip.
    cbn [monitor_loop]. unfold deliver. rewrite Hstop. reflexivity.
  - intros next fp rest' -> Hnext Hfp. rewrite Hskip.
    assert (Hround : monitor_loop w (next :: rest') (feed_unavailable s)
                     = (s1 <- monitor_pass w fp (feed_unavailable s) ;;
                        monitor_loop w rest' s1)).
    { cbn [monitor_loop]. unfold deliver. now rewrite Hnext, Hgo, Hfp. }
    split; [exact Hround|].
    intros s1 Hs1. split.
    + destruct (monitor_pass_counts w _ _ _ Hs1) as [Hit _]. exact Hit.
    + rewrite Hround, Hs1. reflexivity.
Qed.

Lemma feed_unavailable_skips_round_witness :
  monitor_loop w_ok
    [ {| interrupted := false; feed := None |};
      {| interrupted := true; feed := None |} ] (initial_state [])
  = Done (set_keep_running 0 (feed_unavailable (initial_state []))) /\
  exists s1,
    monitor_pass w_ok write6_feed (feed_unavailable (initial_state [])) = Done s1 /\
    iteration s1 = 1 /\
    bugs_found s1 = 1 /\
    monitor_loop w_ok
      [ {| interrupted := false; feed := None |};
        {| interrupted := false; feed := Some write6_feed |};
        {| interrupted := true; feed := None |} ] (initial_state [])
    = Done (set_keep_running 0 s1).
Proof.
  split.
  - destruct (feed_unavailable_skips_round w_ok
                {| interrupted := false; feed := None |}
                [ {| interrupted := true; feed := None |} ]
                (initial_state []) eq_refl eq_refl)
      as (_ & _ & _ & _ & _ & Hstop & _).
    exact (Hstop _ _ eq_refl eq_refl).
  - destruct (feed_unavailable_skips_round w_ok
                {| interrupted := false; feed := None |}
                [ {| interrupted := false; feed := Some write6_feed |};
                  {| interrupted := true; feed := None |} ]
                (initial_state []) eq_refl eq_refl)
      as (_ & _ & _ & _ & _ & _ & Hnext).
    destruct (Hnext _ write6_feed _ eq_refl eq_refl eq_refl) as [_ Hrun].
    assert (E : exists s1,
              monitor_pass w_ok write6_feed (feed_unavailable (initial_state []))
              = Done s1 /\ bugs_found s1 = 1 /\
              monitor_loop w_ok [ {| interrupted := true; feed := None |} ] s1
              = Done (set_keep_running 0 s1))
      by (eexists; split; [vm_compute; reflexivity | split; reflexivity]).
    destruct E as (s1 & Hs1 & Hb & Hend).
    destruct (Hrun s1 Hs1) as [Hit Hloop].
    exists s1. split; [exact Hs1|]. split; [exact Hit|]. split; [exact Hb|].
    rewrite Hloop. exact Hend.
Defined.

(** C7: the exit status of a run that ends is 0 when [bugs_found] is
    positive and 1 otherwise. *)
Theorem exit_status_reflects_bugs_found :
  forall w old setup inputs status s,
    main w old setup inputs = Done (status, s) ->
    (0 < bugs_found s -> status = 0) /\
    (bugs_found s <= 0 -> status = 1).
Proof.
  intros w old setup inputs status s H.
  destruct (main_done w _ _ _ _ _ H)
    as [(_ & -> & ->) | (_ & s1 & _ & -> & ->)].
  - split; [|reflexivity].
    unfold create_log. destruct (log_open_ok w _); cbn; lia.
  - cbn [print set_keep_running bugs_found].
    destruct (Z.ltb_spec 0 (bugs_found s1)); split; lia || reflexivity.
Qed.

Lemma exit_status_reflects_bugs_found_witness :
  exists s, main w_ok [] true short_run = Done (0, s) /\ 0 < bugs_found s.
Proof.
  destruct (main w_ok [] true short_run) as [[status s]| |] eqn:E;
    try (vm_compute in E; discriminate E).
  assert (Hb : bugs_found s = 1).
  { vm_compute in E. now inversion E. }
  destruct (exit_status_reflects_bugs_found w_ok [] true short_run status s E)
    as [H _].
  exists s. rewrite H by lia. split; [reflexivity | lia].
Defined.

(** ** The stop flag *)

Lemma step_keep_running : forall w s s',
  step w s s' -> keep_running s' = keep_running s \/ keep_running s' = 0.
Proof.
  intros w s s' H. destruct H; auto.
  left. eapply monitor_pass_keep_running; eauto.
Qed.

(** A run of [monitor_worker]'s loop is a sequence of these steps. *)
Lemma monitor_loop_steps : forall w inputs s s',
  monitor_loop w inputs s = Done s' -> steps w s s'.
Proof.
  intros w. induction inputs as [|inp rest IH]; intros s s' H; [discriminate|].
  cbn [monitor_loop] in H.
  assert (Hd : steps w s (deliver inp s) /\
               forall x, steps w (deliver inp s) x -> steps w s x).
  { unfold deliver. destruct (interrupted inp).
    - split; [|intros x Hx]; eapply steps_cons; eauto using step, steps.
    - split; [apply steps_refl | auto]. }
  destruct Hd as [_ Hd]. apply Hd. clear Hd.
  destruct (loop_condition (deliver inp s)) eqn:Hc.
  - destruct (feed inp) as [fp|].
    + apply bind_done in H. destruct H as (s1 & H1 & H2).
      eapply steps_cons; [eapply step_monitor_pass; eauto | eauto].
    + eapply steps_cons; [apply step_monitor_skip; exact Hc | eauto].
  - inversion H; subst.
    eapply steps_cons; [apply step_monitor_exit; exact Hc | apply steps_refl].
Qed.

(** C6: whatever the signal handler, the I/O threads, the monitor and
    [main] do, in any order, [keep_running] keeps its value or becomes 0;
    once it is 0 it stays 0. *)
Theorem keep_running_never_set_again : forall w s s',
  steps w s s' ->
  (keep_running s' = keep_running s \/ keep_running s' = 0) /\
  (keep_running s = 0 -> keep_running s' = 0).
Proof.
  intros w s s' H. induction H as [s|s1 s2 s3 H12 _ IH].
  - auto.
  - destruct IH as [IH1 IH2].
    destruct (step_keep_running w s1 s2 H12) as [E|E]; rewrite E in *.
    + auto.
    + split; [right | intros _]; now apply IH2.
Qed.

Lemma keep_running_never_set_again_witness :
  keep_running (set_keep_running 0 (cleanup (initial_state []))) = 0.
Proof.
  apply (keep_running_never_set_again w_ok (cleanup (initial_state []))
           (set_keep_running 0 (cleanup (initial_state [])))).
  - eapply steps_cons; [apply step_main_stop | apply steps_refl].
  - reflexivity.
Defined.

(** ** The counter and the log *)

(** C1, as stated, fails: [bugs_found] is incremented before
    [log_debug_snapshot] is called, and that function returns without
    writing when [bug_find.log] cannot be opened.  With a log that cannot
    be opened, one bogus line gives a counter of 1 and no record. *)
Lemma failed_log_open_leaves_record_missing :
  exists s,
    main w_fail [] true short_run = Done (0, s) /\
    bugs_found s = 1 /\
    record_count (bug_log s) = 0.
Proof.
  eexists. split; [vm_compute; reflexivity|]. split; reflexivity.
Qed.

(** The same with a log that opens and a write that fails: the counter is
    1, the log holds no record, and nothing on the terminal tells of it. *)
Example failed_log_write_is_silent :
  exists s,
    main w_full [] true short_run = Done (0, s) /\
    bugs_found s = 1 /\
    record_count (bug_log s) = 0 /\
    log_warnings (console s) = 0.
Proof.
  eexists. split; [vm_compute; reflexivity|]. repeat split.
Qed.

(** C1, amended: when a run ends, [bugs_found] is the number of calls
    of [log_debug_snapshot] (the log was opened once more, by [main]).
    A call appends one record when the log opens and the write succeeds;
    it appends nothing and prints one warning when the log does not open;
    it appends nothing and prints nothing when the log opens and the
    write fails, the results of [fprintf], [fputs] and [fclose] not being
    looked at.  So the records appended during the run number the calls
    whose open and write both succeeded, the warnings number the calls
    whose open failed, the records appended never exceed [bugs_found],
    and they equal it when no open and no write of the log fails. *)
Theorem bugs_found_counts_snapshot_calls :
  forall w old setup inputs status s,
    main w old setup inputs = Done (status, s) ->
    Z.of_nat (log_opens s) = bugs_found s + 1 /\
    record_count (bug_log s)
    = record_count (bug_log (create_log w (initial_state old)))
      + calls_where (fun k => log_open_ok w k && log_write_ok w k)
          1 (log_opens s - 1) /\
    log_warnings (console s)
    = calls_where (fun k => negb (log_open_ok w k)) 1 (log_opens s - 1) /\
    record_count (bug_log s)
    <= record_count (bug_log (create_log w (initial_state old)))
       + bugs_found s /\
    ((forall k, log_open_ok w k = true /\ log_write_ok w k = true) ->
     record_count (bug_log s) = bugs_found s).
Proof.
  intros w old setup inputs status s H.
  apply main_done in H.
  remember (create_log w (initial_state old)) as start eqn:Es in *.
  assert (Hstart : bugs_found start = 0 /\ log_opens start = 1%nat /\
                   log_warnings (console start) = 0 /\
                   (log_open_ok w 0 = true -> record_count (bug_log start) = 0)).
  { rewrite Es. unfold create_log. cbn [initial_state log_opens].
    destruct (log_open_ok w 0); [destruct (log_write_ok w 0)|]; cbn; auto.
    repeat split. discriminate. }
  clear Es. destruct Hstart as (Hb & Ho & Hw & Hr).
  set (f := fun k => log_open_ok w k && log_write_ok w k).
  set (g := fun k => negb (log_open_ok w k)).
  assert (Hcount : forall x,
            (1 <= log_opens x)%nat ->
            Z.of_nat (log_opens x) = bugs_found x + 1 ->
            record_count (bug_log x) - calls_where f 0 (log_opens x)
            = record_count (bug_log start) - calls_where f 0 1 ->
            log_warnings (console x) - calls_where g 0 (log_opens x)
            = 0 - calls_where g 0 1 ->
            record_count (bug_log x)
            = record_count (bug_log start)
              + calls_where f 1 (log_opens x - 1) /\
            log_warnings (console x) = calls_where g 1 (log_opens x - 1) /\
            record_count (bug_log x)
            <= record_count (bug_log start) + bugs_found x /\
            ((forall k, log_open_ok w k = true /\ log_write_ok w k = true) ->
             record_count (bug_log x) = bugs_found x)).
  { intros x Hx Hcalls Hrec Hwarn.
    destruct (log_opens x) as [|m] eqn:Em; [lia|].
    replace (S m - 1)%nat with m by lia.
    rewrite (calls_where_first f 0 m) in Hrec.
    rewrite (calls_where_first g 0 m) in Hwarn.
    rewrite (calls_where_first f 0 0) in Hrec.
    rewrite (calls_where_first g 0 0) in Hwarn.
    change (calls_where f 1 0) with 0 in Hrec.
    change (calls_where g 1 0) with 0 in Hwarn.
    pose proof (calls_where_bounds f 1 m) as Hf.
    split; [lia | split; [lia | split; [lia | intro Hok]]].
    rewrite (calls_where_all f 1 m) in Hrec
      by (intro k; unfold f; destruct (Hok k) as [-> ->]; reflexivity).
    rewrite Hr in Hrec by apply Hok. lia. }
  destruct H as [(_ & _ & ->) | (_ & s1 & Hrun & -> & _)].
  - cbn [print set_keep_running bugs_found log_opens bug_log console].
    rewrite log_warnings_app.
    change (log_warnings [SetupFailed]) with 0.
    split; [lia|].
    destruct (Hcount start) as (H1 & H2 & H3 & H4); try lia.
    { rewrite Ho. reflexivity. }
    { rewrite Ho, Hw. reflexivity. }
    rewrite Z.add_0_r. auto.
  - pose proof (monitor_worker_calls w _ _ _ Hrun) as Hcalls.
    pose proof (monitor_worker_records w _ _ _ Hrun) as Hrec.
    pose proof (monitor_worker_warnings w _ _ _ Hrun) as Hwarn.
    pose proof (monitor_worker_log_opens w _ _ _ Hrun) as Hle.
    cbn [print set_keep_running bugs_found log_opens bug_log console].
    rewrite log_warnings_app.
    change (log_warnings [Summary (bugs_found s1)]) with 0.
    rewrite Hb, Ho in Hcalls. rewrite Ho in Hrec. rewrite Ho, Hw in Hwarn.
    rewrite Ho in Hle.
    split; [lia|].
    destruct (Hcount s1) as (H1 & H2 & H3 & H4); try lia; auto.
    rewrite Z.add_0_r. auto.
Qed.

Lemma bugs_found_counts_snapshot_calls_witness :
  exists s,
    main w_ok [] true short_run = Done (0, s) /\
    bugs_found s = 1 /\
    record_count (bug_log s) = bugs_found s /\
    log_warnings (console s) = 0.
Proof.
  destruct (main w_ok [] true short_run) as [[status s]| |] eqn:E;
    try (vm_compute in E; discriminate E).
  assert (Hs : status = 0 /\ bugs_found s = 1 /\ log_opens s = 2%nat).
  { vm_compute in E. inversion E. repeat split. }
  destruct Hs as (Hs & Hb & Ho).
  destruct (bugs_found_counts_snapshot_calls w_ok [] true short_run status s E)
    as (_ & _ & Hwarn & _ & H).
  exists s. rewrite Hs. split; [reflexivity|]. split; [exact Hb|].
  split.
  - apply H. intro k. split; reflexivity.
  - rewrite Hwarn, Ho. reflexivity.
Defined.

(** ** The saved buffer *)

(** C10, as stated, fails: [buf_pos] is compared with
    [sizeof(debug_buffer) - 512] before a line is copied, so the line
    copied last may carry the buffer past that mark.  Of 128 lines of 511
    characters, all 65408 characters are saved. *)
Lemma capture_exceeds_buffer_minus_512 :
  captured_length long_feed = 65408 /\
  DEBUG_BUFFER_SIZE - 512 < captured_length long_feed.
Proof. split; vm_compute; reflexivity. Qed.

(** C10, amended: a round saves at most [sizeof(debug_buffer) - 2] = 65534
    characters of the feed, the beginning of the feed, before any line is
    checked; what the round does depends on the feed through the saved
    buffer only; and once [sizeof(debug_buffer) - 512] characters or more
    are saved, whatever follows in the feed is dropped. *)
Theorem capture_ceiling : forall fp, exists buf,
  capture fp = Done buf /\
  Z.of_nat (List.length buf) <= DEBUG_BUFFER_SIZE - 2 /\
  (~ In NUL fp -> exists dropped, fp = buf ++ dropped) /\
  (forall fp' w s,
     capture fp' = Done buf -> monitor_pass w fp' s = monitor_pass w fp s) /\
  (forall extra,
     newline_terminated fp ->
     DEBUG_BUFFER_SIZE - 512 <= Z.of_nat (List.length buf) ->
     capture (fp ++ extra) = Done buf).
Proof.
  intro fp.
  destruct (read_debug_total (S (List.length fp)) fp [] 0) as [buf Hbuf];
    [lia|].
  exists buf. split; [exact Hbuf|]. split.
  - apply (read_debug_bound (S (List.length fp)) fp [] 0 buf);
      [reflexivity | unfold DEBUG_BUFFER_SIZE; lia | exact Hbuf].
  - split; [|split].
    + intro Hnul. apply (read_debug_prefix _ _ _ _ _ Hnul) in Hbuf.
      exact Hbuf.
    + intros fp' w s H. unfold monitor_pass. fold (capture fp) in Hbuf.
      now rewrite H, Hbuf.
    + intros extra Hnl Hlen. unfold capture.
      apply (read_debug_drop (S (List.length fp))); auto.
Qed.

(** ** The scenarios of the specification *)

Example scenario_A :
  parse_elapsed write6_line = 15000 /\
  get_opcode write6_line = Done (cstr "0a") /\
  is_bogus 15000 = true.
Proof. repeat split. Qed.

Example scenario_B :
  let line := cstr "  act: id=7 blen=512 t_o/elap=60000/50ms sgat=0 op=0x00" in
  parse_elapsed line = 50 /\
  check_line w_ok [] line (initial_state []) = Done (initial_state []).
Proof. split; reflexivity. Qed.

Example scenario_C :
  let line := cstr "dev=sg0 max_active=1" in
  parse_elapsed line = -1 /\
  check_line w_ok [] line (initial_state []) = Done (initial_state []).
Proof. split; reflexivity. Qed.

Example scenario_E :
  exists s,
    main w_ok [] true quiet_run = Done (1, s) /\
    bugs_found s = 0 /\ iteration s = 1000 /\ bug_log s = [LogHeader].
Proof.
  eexists. split; [vm_compute; reflexivity|]. repeat split.
Qed.

(** * Further properties of the code *)

(** ** A round, line by line *)

Lemma lines_from_line : forall l cur r,
  ~ In newline l ->
  lines_from cur (l ++ newline :: r) = (rev cur ++ l) :: lines_from [] r.
Proof.
  induction l as [|c l IH]; intros cur r Hl; cbn [app lines_from].
  - rewrite Ascii.eqb_refl. now rewrite app_nil_r.
  - destruct (Ascii.eqb_spec c newline) as [->|_]; [elim Hl; now left|].
    rewrite IH by (intro X; apply Hl; now right).
    cbn [rev]. now rewrite <- app_assoc.
Qed.

Lemma lines_from_tail : forall l cur, ~ In newline l -> lines_from cur l = [].
Proof.
  induction l as [|c l IH]; intros cur Hl; cbn [lines_from]; [reflexivity|].
  destruct (Ascii.eqb_spec c newline) as [->|_]; [elim Hl; now left|].
  apply IH. intro X. apply Hl. now right.
Qed.

Lemma check_line_flagged : forall w buf l s,
  (if Z.of_nat (List.length l) <? Z.of_nat LINE_SIZE
   then check_line w buf l s else Done s)
  = if flagged l
    then opcode <- get_opcode l ;;
         Done (report_bug w buf l (parse_elapsed l) opcode s)
    else Done s.
Proof.
  intros w buf l s. unfold flagged, check_line.
  destruct (_ <? _); [|reflexivity]. cbn [andb].
  destruct (strstr l _); [|reflexivity].
  now destruct (is_bogus _).
Qed.

Lemma check_lines_report_lines : forall w fuel buf lp s,
  (List.length lp < fuel)%nat ->
  check_lines w fuel buf lp s
  = report_lines w buf (filter flagged (complete_lines lp)) s.
Proof.
  intros w. induction fuel as [|fuel IH]; intros buf lp s Hlen; [lia|].
  unfold complete_lines.
  destruct (strchr lp newline) as [n|] eqn:E.
  - apply strchr_split in E. destruct E as (l & t & -> & _ & Hl).
    rewrite check_lines_line by exact Hl.
    rewrite lines_from_line by exact Hl. cbn [rev app filter].
    rewrite check_line_flagged.
    rewrite length_app in Hlen. cbn [List.length] in Hlen.
    destruct (flagged l); cbn [report_lines].
    + rewrite bind_assoc. apply bind_ext. intro op. cbn [bind].
      apply IH. lia.
    + cbn [bind]. apply IH. lia.
  - apply strchr_none in E. rewrite check_lines_tail by exact E.
    now rewrite lines_from_tail.
Qed.

Lemma lines_from_app_tail : forall pre cur tail,
  ~ In newline tail -> lines_from cur (pre ++ tail) = lines_from cur pre.
Proof.
  induction pre as [|c pre IH]; intros cur tail Ht; cbn [app].
  - rewrite lines_from_tail by exact Ht. reflexivity.
  - cbn [lines_from]. destruct (Ascii.eqb c newline); now rewrite IH.
Qed.

Lemma reported_lines_app : forall c1 c2,
  reported_lines (c1 ++ c2) = reported_lines c1 ++ reported_lines c2.
Proof.
  induction c1 as [|e c1 IH]; intro c2; [reflexivity|].
  destruct e; cbn [app reported_lines]; rewrite IH; reflexivity.
Qed.

Lemma report_bug_console : forall w buf line e op s,
  exists warn,
    console (report_bug w buf line e op s)
    = console s ++ warn ++ [BugReport (iteration s) e op line] /\
    (warn = [] \/ warn = [LogWarning]).
Proof.
  intros. unfold report_bug, log_debug_snapshot.
  destruct (first_bug s);
    (destruct (log_open_ok w _);
     [ exists []; destruct (log_write_ok w _) | exists [LogWarning] ]);
    cbn [print console set_bug_log set_log_opens set_bugs_found set_first_bug
         iteration];
    rewrite <- ?app_assoc; auto.
Qed.

Lemma report_bug_reported : forall w buf line e op s,
  reported_lines (console (report_bug w buf line e op s))
  = reported_lines (console s) ++ [line].
Proof.
  intros. destruct (report_bug_console w buf line e op s) as (warn & -> & Hw).
  rewrite !reported_lines_app. destruct Hw as [-> | ->]; reflexivity.
Qed.

(** What a run of reports keeps, given what one report keeps. *)
Lemma report_lines_inv : forall w buf (Q : list ascii -> Prop) (P : state -> Prop),
  (forall l op s, Q l -> get_opcode l = Done op -> P s ->
                  P (report_bug w buf l (parse_elapsed l) op s)) ->
  forall lines s s',
    Forall Q lines ->
    report_lines w buf lines s = Done s' -> P s -> P s'.
Proof.
  intros w buf Q P Hrep. induction lines as [|l ls IH]; intros s s' HQ H Hs.
  - now inversion H; subst.
  - cbn [report_lines] in H. apply bind_done in H. destruct H as (op & Hop & H).
    inversion HQ; subst. apply (IH _ _ H3 H). now apply Hrep.
Qed.

Lemma flagged_lines_forall : forall buf,
  Forall (fun l => flagged l = true /\ In l (complete_lines buf))
         (filter flagged (complete_lines buf)).
Proof.
  intro buf. apply Forall_forall. intros l Hl. apply filter_In in Hl. tauto.
Qed.

Section GuardedPreservation.

Variable w : world.
Variable P : state -> Prop.

Hypothesis P_report : forall buf l op s,
  flagged l = true -> In l (complete_lines buf) -> get_opcode l = Done op ->
  P s -> P (report_bug w buf l (parse_elapsed l) op s).

Lemma check_buffer_inv : forall buf s s',
  check_buffer w buf s = Done s' -> P s -> P s'.
Proof.
  intros buf s s' H Hs. unfold check_buffer in H.
  rewrite check_lines_report_lines in H by lia.
  apply (report_lines_inv w buf
           (fun l => flagged l = true /\ In l (complete_lines buf)) P)
    with (3 := H); [|apply flagged_lines_forall|exact Hs].
  intros l op x [Hf Hin] Hop Hx. now apply P_report.
Qed.

Hypothesis P_first_bug : forall v s, P s -> P (set_first_bug v s).
Hypothesis P_iteration : forall v s, P s -> P (set_iteration v s).
Hypothesis P_quiet : forall e s, quiet e = true -> P s -> P (print e s).

Lemma monitor_pass_inv : forall fp s s',
  monitor_pass w fp s = Done s' -> P s -> P s'.
Proof.
  intros fp s s' H Hs. unfold monitor_pass in H.
  apply bind_done in H. destruct H as (buf & _ & H).
  apply bind_done in H. destruct H as (s1 & H1 & H).
  inversion H; subst. clear H.
  assert (P s1) by (apply (check_buffer_inv _ _ _ H1); now apply P_first_bug).
  apply P_quiet; [reflexivity|].
  destruct (_ =? _); [apply P_quiet; [reflexivity|] | ]; now apply P_iteration.
Qed.

Hypothesis P_stop : forall s, P s -> P (set_keep_running 0 s).

Lemma monitor_loop_inv : forall inputs s s',
  monitor_loop w inputs s = Done s' -> P s -> P s'.
Proof.
  induction inputs as [|inp rest IH]; intros s s' H Hs; [discriminate|].
  cbn [monitor_loop] in H.
  assert (Hd : P (deliver inp s)).
  { unfold deliver, cleanup. destruct (interrupted inp); auto. }
  destruct (loop_condition _).
  - destruct (feed inp) as [fp|].
    + apply bind_done in H. destruct H as (s1 & H1 & H2).
      apply (IH _ _ H2). now apply (monitor_pass_inv _ _ _ H1).
    + apply (IH _ _ H). unfold feed_unavailable.
      apply P_quiet; [reflexivity|]. now apply P_quiet; [reflexivity|].
  - inversion H; subst. now apply P_stop.
Qed.

Lemma monitor_worker_inv : forall inputs s s',
  monitor_worker w inputs s = Done s' -> P s -> P s'.
Proof.
  intros inputs s s' H Hs. unfold monitor_worker in H.
  apply (monitor_loop_inv _ _ _ H).
  apply P_quiet; [reflexivity|]. now apply P_iteration.
Qed.

End GuardedPreservation.

Lemma report_lines_effect : forall w buf lines s s',
  report_lines w buf lines s = Done s' ->
  bugs_found s' = bugs_found s + Z.of_nat (List.length lines) /\
  reported_lines (console s') = reported_lines (console s) ++ lines.
Proof.
  intros w buf. induction lines as [|l ls IH]; intros s s' H.
  - inversion H; subst. cbn. rewrite app_nil_r. split; [lia | reflexivity].
  - cbn [report_lines] in H. apply bind_done in H. destruct H as (op & _ & H).
    apply IH in H. destruct H as [Hb Hr].
    rewrite report_bug_bugs_found in Hb. rewrite report_bug_reported in Hr.
    rewrite Hb, Hr, <- app_assoc. cbn [List.length app]. split; [lia | reflexivity].
Qed.

Lemma report_lines_done_iff : forall w buf lines s,
  (exists s', report_lines w buf lines s = Done s') <->
  Forall (fun l => exists op, get_opcode l = Done op) lines.
Proof.
  intros w buf. induction lines as [|l ls IH]; intro s.
  - split; [constructor | intros _; now exists s].
  - cbn [report_lines]. split.
    + intros [s' H]. apply bind_done in H. destruct H as (op & Hop & H).
      constructor; [now exists op|].
      apply (IH (report_bug w buf l (parse_elapsed l) op s)). now exists s'.
    + intro H. inversion H as [|x xs [op Hop] Hls]; subst.
      rewrite Hop. cbn [bind]. now apply IH.
Qed.

(** X1: a round reports the complete lines of the saved buffer that are
    shorter than 512 characters, hold [elap=] and parse to a value below 0
    or above 10000: [bugs_found] grows by their number and the terminal
    names exactly these lines, in the order of the buffer. *)
Theorem round_reports_flagged_lines : forall w buf s s',
  check_buffer w buf s = Done s' ->
  bugs_found s' =
    bugs_found s + Z.of_nat (List.length (filter flagged (complete_lines buf))) /\
  reported_lines (console s') =
    reported_lines (console s) ++ filter flagged (complete_lines buf).
Proof.
  intros w buf s s' H. unfold check_buffer in H.
  rewrite check_lines_report_lines in H by lia.
  now apply report_lines_effect in H.
Qed.

Lemma round_reports_flagged_lines_witness :
  exists s',
    check_buffer w_ok write6_feed (initial_state []) = Done s' /\
    bugs_found s' = 1 /\
    reported_lines (console s') = [write6_line].
Proof.
  destruct (check_buffer w_ok write6_feed (initial_state [])) as [s'| |] eqn:E;
    try (vm_compute in E; discriminate E).
  exists s'. split; [reflexivity|].
  destruct (round_reports_flagged_lines w_ok write6_feed _ _ E) as [-> ->].
  split; reflexivity.
Defined.

(** X2: a round has a defined outcome exactly when [get_opcode] has one
    on every line the round reports; lines that are not reported cannot
    make it undefined. *)
Theorem round_defined_iff_opcodes_defined : forall w buf s,
  (exists s', check_buffer w buf s = Done s') <->
  Forall (fun l => exists op, get_opcode l = Done op)
         (filter flagged (complete_lines buf)).
Proof.
  intros w buf s. unfold check_buffer.
  rewrite check_lines_report_lines by lia. apply report_lines_done_iff.
Qed.

(** X3: what follows the last newline of the saved buffer is never
    checked: the round is the loop over the text before it. *)
Theorem text_after_last_newline_ignored : forall w pre tail s,
  ~ In newline tail ->
  check_buffer w (pre ++ tail) s
  = check_lines w (S (List.length pre)) (pre ++ tail) pre s.
Proof.
  intros w pre tail s Ht. unfold check_buffer.
  rewrite !check_lines_report_lines by lia.
  unfold complete_lines. now rewrite lines_from_app_tail.
Qed.

Lemma text_after_last_newline_ignored_witness :
  check_buffer w_ok (write6_feed ++ write6_line) (initial_state [])
  = check_lines w_ok (S (List.length write6_feed))
      (write6_feed ++ write6_line) write6_feed (initial_state []).
Proof.
  apply (text_after_last_newline_ignored w_ok write6_feed write6_line).
  vm_compute. intuition discriminate.
Defined.

(** ** A run: the log, the terminal and the rounds *)

Lemma reported_lines_quiet : forall e s,
  quiet e = true ->
  reported_lines (console (print e s)) = reported_lines (console s).
Proof.
  intros e s He. cbn [print console]. rewrite reported_lines_app.
  destruct e; try discriminate He; cbn; now rewrite app_nil_r.
Qed.

Lemma report_bug_log : forall w buf line e op s,
  bug_log (report_bug w buf line e op s) = bug_log s \/
  exists t,
    bug_log (report_bug w buf line e op s)
    = bug_log s ++ [LogRecord {| rec_time := t; rec_iteration := iteration s;
                                rec_elapsed := e; rec_opcode := op;
                                rec_snapshot := buf |}].
Proof.
  intros. unfold report_bug, log_debug_snapshot.
  destruct (first_bug s); destruct (log_open_ok w _);
    try destruct (log_write_ok w _); cbn; eauto.
Qed.

(** X4: the monitor only appends to [bug_find.log], and every record it
    appends carries its context: the snapshot in the record holds a reported
    line, and the elapsed value and the opcode of the record are the ones
    parsed from that line. *)
Theorem log_grows_by_records_in_context : forall w inputs s s',
  monitor_worker w inputs s = Done s' ->
  exists new,
    bug_log s' = bug_log s ++ map LogRecord new /\
    Forall record_in_context new.
Proof.
  intros w inputs s s' H.
  apply (monitor_worker_inv w
           (fun x => exists new,
              bug_log x = bug_log s ++ map LogRecord new /\
              Forall record_in_context new))
    with (inputs := inputs) (s := s); auto.
  - intros buf l op x Hf Hin Hop (new & Hlog & Hall).
    destruct (report_bug_log w buf l (parse_elapsed l) op x) as [E | [t E]];
      rewrite E, Hlog.
    + now exists new.
    + eexists (new ++ [_]). rewrite map_app, <- app_assoc. split; [reflexivity|].
      apply Forall_app. split; [exact Hall|]. constructor; [|constructor].
      exists l. cbn. auto.
  - exists []. cbn. now rewrite app_nil_r.
Qed.

Lemma log_grows_by_records_in_context_witness :
  exists s' new,
    monitor_worker w_ok short_run (initial_state []) = Done s' /\
    bug_log s' = map LogRecord new /\
    Forall record_in_context new.
Proof.
  destruct (monitor_worker w_ok short_run (initial_state [])) as [s'| |] eqn:E;
    try (vm_compute in E; discriminate E).
  destruct (log_grows_by_records_in_context w_ok short_run _ _ E)
    as (new & Hlog & Hall).
  exists s', new. auto.
Defined.

(** X5: when a run ends, every bug counted was reported on the terminal
    and every report is for a flagged line: [bugs_found] is the number of
    reports, whether or not the log could be written. *)
Theorem every_bug_is_reported : forall w old setup inputs status s,
  main w old setup inputs = Done (status, s) ->
  bugs_found s = Z.of_nat (List.length (reported_lines (console s))) /\
  Forall (fun l => flagged l = true) (reported_lines (console s)).
Proof.
  intros w old setup inputs status s H.
  assert (Hstart : bugs_found (create_log w (initial_state old)) = 0 /\
                   reported_lines (console (create_log w (initial_state old))) = []).
  { unfold create_log. now destruct (log_open_ok w _). }
  destruct Hstart as [Hb Hr].
  destruct (main_done w _ _ _ _ _ H)
    as [(_ & _ & ->) | (_ & s1 & Hrun & -> & _)].
  - rewrite reported_lines_quiet by reflexivity. cbn [print bugs_found].
    rewrite Hb, Hr. split; [reflexivity | constructor].
  - rewrite reported_lines_quiet by reflexivity.
    cbn [print set_keep_running bugs_found console].
    apply (monitor_worker_inv w
             (fun x => bugs_found x
                       = Z.of_nat (List.length (reported_lines (console x))) /\
                       Forall (fun l => flagged l = true)
                              (reported_lines (console x))))
      with (inputs := inputs) (s := create_log w (initial_state old)); auto.
    + intros buf l op x Hf _ _ [Hx Hall].
      rewrite report_bug_bugs_found, report_bug_reported, length_app, Hx.
      split; [cbn; lia|]. apply Forall_app. split; [exact Hall|].
      now constructor.
    + intros e x He Hx. now rewrite reported_lines_quiet.
    + rewrite Hb, Hr. split; [reflexivity | constructor].
Qed.

Lemma every_bug_is_reported_witness :
  exists s,
    main w_fail [] true short_run = Done (0, s) /\
    bugs_found s = Z.of_nat (List.length (reported_lines (console s))).
Proof.
  destruct (main w_fail [] true short_run) as [[status s]| |] eqn:E;
    try (vm_compute in E; discriminate E).
  assert (Hs : status = 0) by (vm_compute in E; now inversion E).
  exists s. rewrite Hs. split; [reflexivity|].
  now destruct (every_bug_is_reported w_fail [] true short_run status s E).
Defined.

Lemma progress_count_app : forall c1 c2,
  progress_count (c1 ++ c2) = progress_count c1 + progress_count c2.
Proof.
  intros c1 c2. unfold progress_count. rewrite filter_app, length_app. lia.
Qed.

Lemma report_bug_progress : forall w buf line e op s,
  progress_count (console (report_bug w buf line e op s))
  = progress_count (console s).
Proof.
  intros. destruct (report_bug_console w buf line e op s) as (warn & -> & Hw).
  rewrite !progress_count_app. destruct Hw as [-> | ->]; cbn; lia.
Qed.

Lemma next_hundred : forall i,
  0 <= i ->
  (i + 1) / 100 = i / 100 + (if Z.rem (i + 1) 100 =? 0 then 1 else 0).
Proof.
  intros i Hi. rewrite Z.rem_mod_nonneg by lia.
  pose proof (Z.div_mod i 100 ltac:(lia)) as H1.
  pose proof (Z.mod_pos_bound i 100 ltac:(lia)) as H2.
  pose proof (Z.div_mod (i + 1) 100 ltac:(lia)) as H3.
  pose proof (Z.mod_pos_bound (i + 1) 100 ltac:(lia)) as H4.
  destruct (Z.eqb_spec ((i + 1) mod 100) 0); lia.
Qed.

Lemma monitor_pass_progress : forall w fp s s',
  monitor_pass w fp s = Done s' ->
  0 <= iteration s ->
  progress_count (console s') - iteration s' / 100
  = progress_count (console s) - iteration s / 100.
Proof.
  intros w fp s s' H Hi. unfold monitor_pass in H.
  apply bind_done in H. destruct H as (buf & _ & H).
  apply bind_done in H. destruct H as (s1 & H1 & H).
  assert (H2 : progress_count (console s1) = progress_count (console s) /\
               iteration s1 = iteration s).
  { apply (check_lines_preserves w
             (fun x => progress_count (console x) = progress_count (console s) /\
                       iteration x = iteration s))
      with (2 := H1); [|split; reflexivity].
    intros b line e op x [Hx1 Hx2].
    now rewrite report_bug_progress, report_bug_iteration. }
  destruct H2 as [Hp Hit]. inversion H; subst. clear H.
  pose proof (next_hundred (iteration s) Hi) as Hn. rewrite <- Hit in Hn.
  cbn [set_iteration iteration bugs_found].
  destruct (Z.rem (iteration s1 + 1) 100 =? 0);
    cbn [print console set_iteration iteration];
    rewrite !progress_count_app, Hp;
    change (progress_count [Usleep 100]) with 0;
    try change (progress_count [Progress (iteration s1 + 1) (bugs_found s1)])
      with 1;
    rewrite Hit in *; lia.
Qed.

Lemma monitor_loop_progress : forall w inputs s s',
  monitor_loop w inputs s = Done s' ->
  0 <= iteration s ->
  progress_count (console s') - iteration s' / 100
  = progress_count (console s) - iteration s / 100.
Proof.
  intros w. induction inputs as [|inp rest IH]; intros s s' H Hi; [discriminate|].
  cbn [monitor_loop] in H.
  assert (Hd : iteration (deliver inp s) = iteration s /\
               console (deliver inp s) = console s).
  { unfold deliver. now destruct (interrupted inp). }
  destruct Hd as [Hd1 Hd2].
  destruct (loop_condition _).
  - destruct (feed inp) as [fp|].
    + apply bind_done in H. destruct H as (s1 & H1 & H2).
      pose proof (monitor_pass_counts w _ _ _ H1) as [Hit _].
      apply monitor_pass_progress in H1; [|lia].
      apply IH in H2; [|lia]. rewrite Hd1, Hd2 in *. lia.
    + apply IH in H; [|cbn; lia].
      cbn [feed_unavailable print console iteration] in H.
      rewrite !progress_count_app, Hd1, Hd2 in H. cbn in H. lia.
  - inversion H; subst. cbn [set_keep_running console iteration].
    now rewrite Hd1, Hd2.
Qed.

(** X6: a progress line is printed with every hundredth round and at no
    other time: when a run ends the terminal holds as many progress lines
    as hundreds of rounds were completed. *)
Theorem progress_every_hundred_rounds : forall w old setup inputs status s,
  main w old setup inputs = Done (status, s) ->
  progress_count (console s) = iteration s / 100.
Proof.
  intros w old setup inputs status s H.
  assert (Hstart : progress_count (console (create_log w (initial_state old))) = 0 /\
                   iteration (create_log w (initial_state old)) = 0).
  { unfold create_log. now destruct (log_open_ok w _). }
  destruct Hstart as [Hp Hi].
  destruct (main_done w _ _ _ _ _ H)
    as [(_ & _ & ->) | (_ & s1 & Hrun & -> & _)];
    cbn [print set_keep_running console iteration];
    rewrite progress_count_app.
  - rewrite Hp, Hi. reflexivity.
  - unfold monitor_worker in Hrun. apply monitor_loop_progress in Hrun;
      [|cbn; lia].
    cbn [print set_iteration console iteration] in Hrun.
    rewrite progress_count_app, Hp in Hrun. cbn in Hrun. cbn. lia.
Qed.

Lemma progress_every_hundred_rounds_witness :
  exists s,
    main w_ok [] true quiet_run = Done (1, s) /\
    progress_count (console s) = 10.
Proof.
  assert (E : exists s, main w_ok [] true quiet_run = Done (1, s) /\
                        iteration s = 1000).
  { eexists. split; [vm_compute; reflexivity | reflexivity]. }
  destruct E as (s & E & Hi). exists s. split; [exact E|].
  rewrite (progress_every_hundred_rounds w_ok [] true quiet_run 1 s E), Hi.
  reflexivity.
Defined.

Lemma monitor_loop_exit : forall w inputs s s',
  (forall inp, In inp inputs -> interrupted inp = false) ->
  keep_running s <> 0 ->
  iteration s <= TEST_ITERATIONS ->
  monitor_loop w inputs s = Done s' ->
  iteration s' = TEST_ITERATIONS /\ keep_running s' = 0.
Proof.
  intros w. induction inputs as [|inp rest IH]; intros s s' Hsig Hk Hi H;
    [discriminate|].
  cbn [monitor_loop] in H.
  assert (Hd : deliver inp s = s).
  { unfold deliver. rewrite (Hsig inp); [reflexivity | now left]. }
  rewrite Hd in H.
  assert (Hrest : forall i, In i rest -> interrupted i = false)
    by (intros i Hin; apply Hsig; now right).
  destruct (loop_condition s) eqn:Hc.
  - unfold loop_condition in Hc. apply andb_true_iff in Hc.
    destruct Hc as [_ Hc]. apply Z.ltb_lt in Hc.
    destruct (feed inp) as [fp|].
    + apply bind_done in H. destruct H as (s1 & H1 & H2).
      pose proof (monitor_pass_counts w _ _ _ H1) as [Hit _].
      pose proof (monitor_pass_keep_running w _ _ _ H1) as Hkr.
      apply (IH _ _ Hrest) in H2; [exact H2 | congruence | lia].
    + apply (IH _ _ Hrest) in H; [exact H | exact Hk | exact Hi].
  - inversion H; subst. cbn [set_keep_running iteration keep_running].
    split; [|reflexivity].
    unfold loop_condition in Hc. apply andb_false_iff in Hc.
    destruct Hc as [Hc|Hc].
    + apply negb_false_iff, Z.eqb_eq in Hc. now elim Hk.
    + apply Z.ltb_ge in Hc. lia.
Qed.

Lemma monitor_loop_clears_flag : forall w inputs s s',
  monitor_loop w inputs s = Done s' -> keep_running s' = 0.
Proof.
  intros w. induction inputs as [|inp rest IH]; intros s s' H; [discriminate|].
  cbn [monitor_loop] in H. destruct (loop_condition _).
  - destruct (feed inp) as [fp|]; [|now apply IH in H].
    apply bind_done in H. destruct H as (s1 & _ & H2). now apply IH in H2.
  - now inversion H; subst.
Qed.

(** X7: the monitor leaves its loop with [keep_running] cleared, and when
    no signal arrived it leaves after exactly 1000 rounds in which the feed
    could be opened. *)
Theorem monitor_stops_run_after_limit : forall w inputs s s',
  monitor_worker w inputs s = Done s' ->
  keep_running s' = 0 /\
  (keep_running s <> 0 ->
   (forall inp, In inp inputs -> interrupted inp = false) ->
   iteration s' = TEST_ITERATIONS).
Proof.
  intros w inputs s s' H. unfold monitor_worker in H. split.
  - now apply monitor_loop_clears_flag in H.
  - intros Hk Hsig.
    apply monitor_loop_exit in H; auto; [tauto | cbn; unfold TEST_ITERATIONS; lia].
Qed.

Lemma monitor_stops_run_after_limit_witness :
  exists s',
    monitor_worker w_ok quiet_run (initial_state []) = Done s' /\
    keep_running s' = 0 /\ iteration s' = 1000.
Proof.
  assert (E : exists s',
                monitor_worker w_ok quiet_run (initial_state []) = Done s').
  { eexists. vm_compute. reflexivity. }
  destruct E as (s' & E).
  destruct (monitor_stops_run_after_limit w_ok quiet_run _ _ E) as [Hk Hi].
  exists s'. split; [exact E|]. split; [exact Hk|].
  apply Hi; [discriminate|].
  intros inp Hin. apply repeat_spec in Hin. now subst.
Defined.

(** ** Saving the feed, ending the loop, the range of the counter *)

Lemma read_debug_whole : forall fuel fp buf pos,
  (List.length fp < fuel)%nat ->
  ~ In NUL fp ->
  pos = Z.of_nat (List.length buf) ->
  pos + Z.of_nat (List.length fp) <= DEBUG_BUFFER_SIZE - 512 ->
  read_debug fuel fp buf pos = Done (buf ++ fp).
Proof.
  induction fuel as [|fuel IH]; intros fp buf pos Hfuel Hnul Hpos Hlen; [lia|].
  rewrite read_debug_unfold.
  destruct (fgets LINE_SIZE fp) as [[line fp']|] eqn:E.
  - destruct (fgets_some _ _ _ _ line_size_gt_1 E) as (Hs & _ & Hne).
    subst fp. rewrite length_app in Hlen, Hfuel.
    assert (0 < List.length line)%nat by (destruct line; [now elim Hne | cbn; lia]).
    destruct (Z.ltb_spec pos (DEBUG_BUFFER_SIZE - 512)); [|lia].
    rewrite c_string_nul_free
      by (intro X; apply Hnul; apply in_or_app; now left).
    rewrite IH.
    + now rewrite app_assoc.
    + lia.
    + intro X. apply Hnul. apply in_or_app. now right.
    + rewrite length_app. lia.
    + lia.
  - apply fgets_none in E. subst fp. now rewrite app_nil_r.
Qed.

(** X8: a feed without NUL of at most [sizeof(debug_buffer) - 512] = 65024
    characters is saved whole, lines longer than the 512-byte line array
    included. *)
Theorem short_feed_is_saved_whole : forall fp,
  ~ In NUL fp ->
  Z.of_nat (List.length fp) <= DEBUG_BUFFER_SIZE - 512 ->
  capture fp = Done fp.
Proof.
  intros fp Hnul Hlen. unfold capture.
  now rewrite read_debug_whole by (auto; cbn; lia).
Qed.

Lemma short_feed_is_saved_whole_witness :
  capture (repeat "a"%char 600 ++ write6_feed)
  = Done (repeat "a"%char 600 ++ write6_feed).
Proof.
  apply short_feed_is_saved_whole.
  - intro H. apply in_app_or in H. destruct H as [H|H].
    + apply repeat_spec in H. discriminate H.
    + vm_compute in H. intuition discriminate.
  - rewrite length_app, repeat_length. vm_compute. discriminate.
Defined.

(** X9: when the feed can be opened in every round, the monitor is done
    with the 1001st test of its loop condition at the latest: 1001 inputs
    are enough for [monitor_worker] to return or to meet undefined
    behaviour. *)
Theorem monitor_ends_within_limit : forall w inputs s,
  (forall inp, In inp inputs -> feed inp <> None) ->
  TEST_ITERATIONS < Z.of_nat (List.length inputs) ->
  monitor_worker w inputs s <> Pending.
Proof.
  intros w inputs s Hfeed Hlen. unfold monitor_worker.
  apply monitor_loop_finishes; [exact Hfeed|].
  cbn [print set_iteration iteration]. unfold TEST_ITERATIONS in *. lia.
Qed.

Lemma monitor_ends_within_limit_witness :
  monitor_worker w_ok quiet_run (initial_state []) <> Pending.
Proof.
  apply monitor_ends_within_limit.
  - intros inp Hin. apply repeat_spec in Hin. subst inp. discriminate.
  - unfold quiet_run. rewrite repeat_length. vm_compute. reflexivity.
Defined.

(** X10: rounds in which the feed cannot be opened do not count: as long
    as no signal arrives and the feed stays unavailable, the monitor never
    leaves its loop, however many rounds it is given. *)
Theorem unavailable_feed_never_ends : forall w inputs s,
  (forall inp, In inp inputs -> feed inp = None /\ interrupted inp = false) ->
  keep_running s <> 0 ->
  monitor_worker w inputs s = Pending.
Proof.
  intros w inputs s Hin Hk. unfold monitor_worker.
  assert (Hc : loop_condition (print MonitorStart (set_iteration 0 s)) = true).
  { unfold loop_condition. cbn. apply andb_true_iff. split; [|reflexivity].
    apply negb_true_iff. now apply Z.eqb_neq. }
  revert Hin Hc. generalize (print MonitorStart (set_iteration 0 s)).
  induction inputs as [|inp rest IH]; intros x Hin Hc; [reflexivity|].
  cbn [monitor_loop]. destruct (Hin inp (or_introl eq_refl)) as [Hf Hi].
  unfold deliver. rewrite Hi, Hc, Hf. apply IH.
  - intros i H. apply Hin. now right.
  - exact Hc.
Qed.

Lemma unavailable_feed_never_ends_witness :
  monitor_worker w_ok (repeat {| interrupted := false; feed := None |} 2000)
    (initial_state []) = Pending.
Proof.
  apply unavailable_feed_never_ends.
  - intros inp Hin. apply repeat_spec in Hin. subst inp. split; reflexivity.
  - discriminate.
Defined.

(** X11: when a run ends, [bugs_found] is at most 65534 for each round
    completed and there are at most 1000 rounds, so the counter stays
    below [INT_MAX] and [bugs_found++] never overflows. *)
Theorem counter_bounded_by_rounds : forall w old setup inputs status s,
  main w old setup inputs = Done (status, s) ->
  0 <= iteration s <= TEST_ITERATIONS /\
  0 <= bugs_found s <= (DEBUG_BUFFER_SIZE - 2) * iteration s /\
  bugs_found s < INT_MAX.
Proof.
  intros w old setup inputs status s H.
  assert (Hstart : bugs_found (create_log w (initial_state old)) = 0 /\
                   iteration (create_log w (initial_state old)) = 0).
  { unfold create_log. now destruct (log_open_ok w _). }
  destruct Hstart as [Hb Hi].
  destruct (main_done w _ _ _ _ _ H)
    as [(_ & _ & ->) | (_ & s1 & Hrun & -> & _)];
    cbn [print set_keep_running bugs_found iteration].
  - rewrite Hb, Hi. unfold TEST_ITERATIONS, INT_MAX. lia.
  - unfold monitor_worker in Hrun. apply monitor_loop_counts in Hrun.
    + unfold DEBUG_BUFFER_SIZE, TEST_ITERATIONS, INT_MAX in *. lia.
    + cbn. unfold TEST_ITERATIONS. lia.
    + cbn [print set_iteration iteration bugs_found]. rewrite Hb. lia.
Qed.

Lemma counter_bounded_by_rounds_witness :
  exists s,
    main w_ok [] true short_run = Done (0, s) /\ bugs_found s < INT_MAX.
Proof.
  destruct (main w_ok [] true short_run) as [[status s]| |] eqn:E;
    try (vm_compute in E; discriminate E).
  assert (Hs : status = 0) by (vm_compute in E; now inversion E).
  exists s. rewrite Hs. split; [reflexivity|].
  apply (counter_bounded_by_rounds w_ok [] true short_run status s E).
Defined.

(** ** More on the parser *)

Lemma int_of_long_range : forall v, INT_MIN <= int_of_long v <= INT_MAX.
Proof.
  intro v. unfold int_of_long, INT_MIN, INT_MAX.
  pose proof (Z.mod_pos_bound (v + 2147483648) 4294967296 ltac:(lia)). lia.
Qed.

Lemma scan_d_range : forall s v r,
  scan_d s = Some (v, r) -> INT_MIN <= v <= INT_MAX.
Proof.
  intros s v r H. unfold scan_d in H.
  destruct (match skip_space s with
            | [] => (false, skip_space s)
            | c :: t =>
                if Ascii.eqb c "-" then (true, t)
                else if Ascii.eqb c "+" then (false, t)
                else (false, skip_space s)
            end) as [neg s2].
  destruct (span isdigit s2) as [ds s3]. destruct ds; [discriminate|].
  inversion H; subst. apply int_of_long_range.
Qed.

(** X12: whatever the line, [parse_elapsed] returns a value of the range
    of [int]: the [long] it returns comes from an [int], or is -1. *)
Theorem parse_elapsed_in_int_range : forall line,
  INT_MIN <= parse_elapsed line <= INT_MAX.
Proof.
  intro line. unfold parse_elapsed.
  destruct (strstr line TIMING_MARKER) as [p|];
    [|unfold INT_MIN, INT_MAX; lia].
  unfold sscanf_elap. destruct (match_literal TIMING_MARKER p) as [r1|];
    [|unfold INT_MIN, INT_MAX; lia].
  destruct (scan_d r1) as [[timeout r2]|]; [|unfold INT_MIN, INT_MAX; lia].
  destruct (match_literal (cstr "/") r2) as [r3|];
    [|unfold INT_MIN, INT_MAX; lia].
  destruct (scan_d r3) as [[elapsed r4]|] eqn:E;
    [|unfold INT_MIN, INT_MAX; lia].
  now apply scan_d_range in E.
Qed.

Lemma skip_space_spaces : forall ws x,
  forallb isspace ws = true -> skip_space (ws ++ x) = skip_space x.
Proof.
  induction ws as [|c ws IH]; intros x H; [reflexivity|].
  cbn [forallb] in H. apply andb_true_iff in H. destruct H as [Hc Hws].
  cbn [app skip_space]. rewrite Hc. now apply IH.
Qed.

Lemma scan_d_spaces : forall ws x,
  forallb isspace ws = true -> scan_d (ws ++ x) = scan_d x.
Proof.
  intros ws x H. unfold scan_d. now rewrite skip_space_spaces.
Qed.

(** X13: [parse_elapsed] takes the elapsed value from the first
    [t_o/elap=] of the line whatever precedes it, accepts white space
    before either number, and does not require the [ms] that the format
    names: anything that is not a digit may follow the second number. *)
Theorem parse_elapsed_tolerates : forall pre ws1 timeout ws2 elapsed rest,
  strstr pre TIMING_MARKER = None ->
  forallb isspace ws1 = true ->
  forallb isspace ws2 = true ->
  INT_MIN <= timeout <= INT_MAX ->
  INT_MIN <= elapsed <= INT_MAX ->
  ends_number rest = true ->
  parse_elapsed
    (pre ++ TIMING_MARKER ++ ws1 ++ print_d timeout ++ cstr "/" ++
     ws2 ++ print_d elapsed ++ rest) = elapsed.
Proof.
  intros pre ws1 timeout ws2 elapsed rest Hpre H1 H2 Ht He Hrest.
  unfold parse_elapsed.
  rewrite (strstr_first _ timing_marker_no_overlap pre _ Hpre).
  unfold sscanf_elap. rewrite match_literal_app.
  rewrite (scan_d_spaces ws1) by exact H1.
  rewrite (scan_d_print_d timeout); [ | exact Ht | reflexivity ].
  rewrite match_literal_app.
  rewrite (scan_d_spaces ws2) by exact H2.
  rewrite (scan_d_print_d elapsed); [ reflexivity | exact He | exact Hrest ].
Qed.

Lemma parse_elapsed_tolerates_witness :
  parse_elapsed (cstr "x=1 t_o/elap= 60000/  -7 sgat=0") = -7.
Proof.
  apply (parse_elapsed_tolerates (cstr "x=1 ") (cstr " ") 60000 (cstr "  ")
           (-7) (cstr " sgat=0")).
  - reflexivity.
  - reflexivity.
  - reflexivity.
  - unfold INT_MIN, INT_MAX. lia.
  - unfold INT_MIN, INT_MAX. lia.
  - reflexivity.
Defined.

Lemma cut_opcode_chars : forall tok,
  forallb is_opcode_char (cut_opcode tok) = true /\
  (List.length (cut_opcode tok) <= List.length tok)%nat.
Proof.
  induction tok as [|c tok [IH1 IH2]]; cbn [cut_opcode]; [split; auto|].
  destruct (is_opcode_char c) eqn:E; cbn [forallb List.length].
  - rewrite E, IH1. split; [reflexivity | lia].
  - split; [reflexivity | lia].
Qed.

(** X14: an opcode that [get_opcode] returns has at most 7 characters, so
    [strcpy(bug_opcode, opcode)] stays within the 8 bytes of [bug_opcode],
    and it is either [??] or made of ['0'..'9'] and ['a'..'f'] only. *)
Theorem get_opcode_fits : forall line opcode,
  get_opcode line = Done opcode ->
  Z.of_nat (List.length opcode) < OPCODE_SIZE /\
  (opcode = cstr "??" \/ forallb is_opcode_char opcode = true).
Proof.
  intros line opcode H. unfold get_opcode in H.
  destruct (strstr line OPCODE_MARKER) as [p|].
  - destruct (match_literal OPCODE_MARKER p) as [r|]; [|discriminate].
    destruct (scan_s r) as [tok|]; [|discriminate].
    destruct (Z.ltb_spec (Z.of_nat (List.length tok)) OPCODE_SIZE);
      [|discriminate].
    inversion H; subst. destruct (cut_opcode_chars tok) as [Hc Hl].
    split; [lia | now right].
  - inversion H; subst. split; [reflexivity | now left].
Qed.

Lemma get_opcode_fits_witness :
  Z.of_nat (List.length (cstr "0a")) < OPCODE_SIZE.
Proof.
  apply (get_opcode_fits write6_line (cstr "0a")). reflexivity.
Defined.

(** ** The I/O threads *)

Lemma request_rotation : forall k,
  match Z.rem (Z.of_nat k) 3 with
  | 0 => [send_scsi_cmd test_unit_ready SG_DXFER_NONE]
  | 1 => [send_scsi_cmd read6 SG_DXFER_FROM_DEV]
  | 2 => [send_scsi_cmd write6 SG_DXFER_TO_DEV]
  | _ => []
  end = [rotation k].
Proof.
  intro k. rewrite Z.rem_mod_nonneg by lia.
  change 3 with (Z.of_nat 3). rewrite <- Nat2Z.inj_mod. unfold rotation.
  pose proof (Nat.mod_upper_bound k 3 ltac:(lia)) as Hk.
  destruct (k mod 3)%nat as [|[|[|n]]]; try reflexivity. lia.
Qed.

Lemma io_loop_rotation : forall flags k sent out,
  io_loop flags (Z.of_nat k) sent = Done out ->
  out = sent ++ map rotation (seq k (rounds_before_stop flags)).
Proof.
  induction flags as [|f flags IH]; intros k sent out H; [discriminate|].
  cbn [io_loop rounds_before_stop] in *.
  destruct (f =? 0).
  - inversion H; subst. cbn. now rewrite app_nil_r.
  - destruct (Z.of_nat k =? INT_MAX); [discriminate|].
    rewrite request_rotation in H.
    replace (Z.of_nat k + 1) with (Z.of_nat (S k)) in H by lia.
    apply IH in H. rewrite H, <- app_assoc. reflexivity.
Qed.

(** X15: an I/O thread that ends has sent TEST UNIT READY, READ(6),
    WRITE(6), in this rotation and with the transfer direction and length
    that belong to each, once for every test of [keep_running] that came
    before the first one to read 0. *)
Theorem io_worker_rotates_commands : forall flags sent,
  io_worker true flags = Done sent ->
  sent = map rotation (seq 0 (rounds_before_stop flags)).
Proof.
  intros flags sent H. unfold io_worker in H.
  now apply (io_loop_rotation flags 0 []) in H.
Qed.

Lemma io_worker_rotates_commands_witness :
  map cmdp (map rotation (seq 0 (rounds_before_stop [1; 1; 1; 1; 0; 1])))
  = [test_unit_ready; read6; write6; test_unit_ready].
Proof.
  rewrite <- (io_worker_rotates_commands [1; 1; 1; 1; 0; 1]
                (map rotation (seq 0 4))); reflexivity.
Defined.

(** ** Finding the device *)

Lemma skip_trailing_spec : forall l,
  exists dropped,
    l = dropped ++ skip_trailing l /\
    forallb is_trailing dropped = true /\
    match skip_trailing l with
    | c :: _ => is_trailing c = false
    | [] => True
    end.
Proof.
  induction l as [|c l (d & Hl & Hd & Hh)]; [now exists []|].
  cbn [skip_trailing]. destruct (is_trailing c) eqn:E.
  - exists (c :: d). cbn [app forallb]. rewrite E, Hd. rewrite <- Hl. auto.
  - exists []. rewrite E. auto.
Qed.

(** X16: the loop over the end of [model] removes exactly the trailing
    newlines, spaces and carriage returns: what is left is the beginning of
    [model], what is cut holds only such characters, and what is left does
    not end in one. *)
Theorem trim_model_cuts_trailing_blanks : forall model,
  exists dropped,
    model = trim_model model ++ dropped /\
    forallb is_trailing dropped = true /\
    match rev (trim_model model) with
    | c :: _ => is_trailing c = false
    | [] => True
    end.
Proof.
  intro model. unfold trim_model. rewrite rev_involutive.
  destruct (skip_trailing_spec (rev model)) as (d & Hl & Hd & Hh).
  exists (rev d). split; [|split; [|exact Hh]].
  - rewrite <- rev_app_distr, <- Hl. now rewrite rev_involutive.
  - rewrite forallb_forall in *. intros x Hx. apply Hd. now apply in_rev.
Qed.

Lemma find_by_lsscsi_exists : forall sys dp path,
  find_by_lsscsi sys dp = Done (Some path) -> path_exists sys path = true.
Proof.
  intros sys dp path H. unfold find_by_lsscsi in H.
  destruct (lsscsi_output sys) as [out|]; [|discriminate].
  destruct (fgets 256 out) as [[chunk rest]|]; [|discriminate].
  destruct (strstr _ _); [|discriminate].
  apply bind_done in H. destruct H as (p & _ & H).
  destruct (path_exists sys p) eqn:E; [|discriminate].
  now inversion H; subst.
Qed.

Lemma find_by_model_exists : forall sys count sg_num path,
  find_by_model sys count sg_num = Done (Some path) ->
  path_exists sys path = true.
Proof.
  intros sys. induction count as [|count IH]; intros sg_num path H;
    [discriminate|].
  cbn [find_by_model] in H.
  destruct (sg_model sys sg_num) as [contents|]; [|now apply IH in H].
  destruct (fgets 64 contents) as [[chunk rest]|]; [|now apply IH in H].
  destruct (c_string chunk) as [|c model]; [discriminate|].
  destruct (strstr _ _); [|now apply IH in H].
  destruct (path_exists sys (dev_sg sg_num)) eqn:E; [|discriminate].
  now inversion H; subst.
Qed.

Lemma find_by_link_exists : forall sys expected count sg_num path,
  find_by_link sys expected count sg_num = Done (Some path) ->
  path_exists sys path = true.
Proof.
  intros sys expected. induction count as [|count IH]; intros sg_num path H;
    [discriminate|].
  cbn [find_by_link] in H.
  destruct (sg_link sys sg_num) as [link|]; [|now apply IH in H].
  destruct (firstn 255 link) as [|c target]; [now apply IH in H|].
  destruct (strstr _ _); [|now apply IH in H].
  destruct (path_exists sys (dev_sg sg_num)) eqn:E; [|discriminate].
  now inversion H; subst.
Qed.

Lemma find_by_proc_exists : forall sys path,
  find_by_proc sys = Done (Some path) -> path_exists sys path = true.
Proof.
  intros sys path H. unfold find_by_proc in H.
  destruct (proc_scsi_output sys) as [out|]; [|discriminate].
  destruct (fgets 256 out) as [[chunk rest]|]; [|discriminate].
  destruct (sscanf_host _) as [[[[host channel] id] lun]|]; [|discriminate].
  exact (find_by_link_exists _ _ _ _ _ H).
Qed.

(** X17: [find_scsi_debug_sg] returns 0 only with a [device_path] for
    which [access] succeeded, whichever of the three methods found it, and
    otherwise returns -1 with [device_path] still empty. *)
Theorem find_returns_existing_device : forall sys r path,
  find_scsi_debug_sg sys = Done (r, path) ->
  (r = 0 /\ path_exists sys path = true) \/ (r = -1 /\ path = []).
Proof.
  intros sys r path H. unfold find_scsi_debug_sg in H.
  apply bind_done in H. destruct H as ([p1|] & H1 & H).
  - inversion H; subst. left. split; [reflexivity|].
    exact (find_by_lsscsi_exists _ _ _ H1).
  - apply bind_done in H. destruct H as ([p2|] & H2 & H).
    + inversion H; subst. left. split; [reflexivity|].
      exact (find_by_model_exists _ _ _ _ H2).
    + apply bind_done in H. destruct H as ([p3|] & H3 & H).
      * inversion H; subst. left. split; [reflexivity|].
        exact (find_by_proc_exists _ _ H3).
      * inversion H; subst. right. split; reflexivity.
Qed.

Lemma find_returns_existing_device_witness :
  path_exists sample_system (cstr "/dev/sg2") = true.
Proof.
  destruct (find_returns_existing_device sample_system 0 (cstr "/dev/sg2"))
    as [[_ H] | [H _]].
  - reflexivity.
  - exact H.
  - discriminate H.
Defined.

Lemma find_by_model_first : forall sys count start n model,
  start <= n < start + Z.of_nat count ->
  (forall m, start <= m < n ->
     model_line sys m = None \/
     exists other,
       model_line sys m = Some other /\ other <> [] /\
       strstr (trim_model other) (cstr "scsi_debug") = None) ->
  model_line sys n = Some model ->
  model <> [] ->
  strstr (trim_model model) (cstr "scsi_debug") <> None ->
  path_exists sys (dev_sg n) = true ->
  find_by_model sys count start = Done (Some (dev_sg n)).
Proof.
  intros sys. induction count as [|count IH];
    intros start n model Hn Hlow Hline Hne Hmatch Hex; [lia|].
  cbn [find_by_model].
  destruct (Z.eq_dec start n) as [->|Hsn].
  - unfold model_line in Hline.
    destruct (sg_model sys n) as [contents|]; [|discriminate].
    destruct (fgets 64 contents) as [[chunk rest]|]; [|discriminate].
    inversion Hline; subst. destruct (c_string chunk) as [|c t]; [now elim Hne|].
    destruct (strstr _ _); [|now elim Hmatch]. now rewrite Hex.
  - assert (Hnext : find_by_model sys count (start + 1) = Done (Some (dev_sg n))).
    { apply (IH (start + 1) n model); auto; [lia|].
      intros m Hm. apply Hlow. lia. }
    destruct (Hlow start ltac:(lia)) as [Hnone | (other & Ho & Hone & Hno)];
      unfold model_line in *.
    + destruct (sg_model sys start) as [contents|]; [|exact Hnext].
      destruct (fgets 64 contents) as [[chunk rest]|]; [discriminate | exact Hnext].
    + destruct (sg_model sys start) as [contents|]; [|discriminate].
      destruct (fgets 64 contents) as [[chunk rest]|]; [|discriminate].
      inversion Ho; subst. destruct (c_string chunk) as [|c t]; [now elim Hone|].
      now rewrite Hno.
Qed.

(** X18: when method 1 finds no [/dev/sg] in the output of [lsscsi], the
    function returns the lowest-numbered [/dev/sg<n>], [n] below 32, whose
    model line holds [scsi_debug] once its trailing blanks are cut,
    provided that device exists; devices before it without a model file or
    with another model are passed over. *)
Theorem find_takes_first_scsi_debug_model : forall sys n model,
  find_by_lsscsi sys [] = Done None ->
  0 <= n < 32 ->
  (forall m, 0 <= m < n ->
     model_line sys m = None \/
     exists other,
       model_line sys m = Some other /\ other <> [] /\
       strstr (trim_model other) (cstr "scsi_debug") = None) ->
  model_line sys n = Some model ->
  model <> [] ->
  strstr (trim_model model) (cstr "scsi_debug") <> None ->
  path_exists sys (dev_sg n) = true ->
  find_scsi_debug_sg sys = Done (0, dev_sg n).
Proof.
  intros sys n model H1 Hn Hlow Hline Hne Hmatch Hex.
  unfold find_scsi_debug_sg. rewrite H1. cbn [bind].
  rewrite (find_by_model_first sys 32 0 n model); auto.
Qed.

Lemma find_takes_first_scsi_debug_model_witness :
  find_scsi_debug_sg sample_system = Done (0, cstr "/dev/sg2").
Proof.
  apply (find_takes_first_scsi_debug_model sample_system 2
           (cstr "scsi_debug      
")).
  - reflexivity.
  - lia.
  - intros m Hm. assert (Hm' : m = 0 \/ m = 1) by lia.
    destruct Hm' as [-> | ->].
    + right. eexists. split; [reflexivity|]. split; [discriminate | reflexivity].
    + left. reflexivity.
  - reflexivity.
  - discriminate.
  - discriminate.
  - reflexivity.
Defined.

(** ** Lines from which no value can be read *)

(** X19: [parse_elapsed] answers -1 both for a line without a readable
    timing field and for an elapsed time of -1, and the monitor takes the
    answer for a negative time: every line shorter than 512 characters that
    holds [elap=] but no [t_o/elap=] followed by two numbers is reported,
    with an elapsed time of -1. *)
Theorem unreadable_timing_is_reported : forall line,
  Z.of_nat (List.length line) < Z.of_nat LINE_SIZE ->
  strstr line (cstr "elap=") <> None ->
  (forall p, strstr line TIMING_MARKER = Some p -> sscanf_elap p = None) ->
  parse_elapsed line = -1 /\ flagged line = true.
Proof.
  intros line Hlen Hgate Hscan.
  assert (Hp : parse_elapsed line = -1).
  { unfold parse_elapsed. destruct (strstr line TIMING_MARKER) as [p|];
      [|reflexivity].
    now rewrite (Hscan p eq_refl). }
  split; [exact Hp|]. unfold flagged. apply Z.ltb_lt in Hlen. rewrite Hlen.
  destruct (strstr line (cstr "elap=")); [|now elim Hgate].
  now rewrite Hp.
Qed.

Lemma unreadable_timing_is_reported_witness :
  flagged (cstr "op=0xZZ t_o/elap=abc/ms") = true.
Proof.
  apply (unreadable_timing_is_reported (cstr "op=0xZZ t_o/elap=abc/ms")).
  - vm_compute. reflexivity.
  - discriminate.
  - intros p Hp. vm_compute in Hp. inversion Hp. reflexivity.
Defined.
